(** * ivobject: immutable value objects

    A shallow embedding of [ivobject/ivobject.py]: the [ImmutableDict]
    container, the [ArgsSpec] signature inspector and the [ValueObject]
    base type with its construction pipeline ([__new__]), its attribute
    interception and its equality, representation and hash.

    Python values live in a small closed universe.  Mutable built-in
    containers (list, set, dict) are objects of a store and are denoted by
    references, so that two names for one list are two copies of one
    reference; tuples and [ImmutableDict]s are carried by value. *)

From Stdlib Require Import ZArith String Ascii.
From stdpp Require Import gmap strings list fin_maps pretty.

Open Scope string_scope.
Open Scope list_scope.
Set Warnings "-register-all".

(** ** Exceptions and results *)

(** The exceptions of the module, one constructor for each name that a
    raise site uses, with the arguments passed there, and the two
    built-in errors that the modelled operations can meet.  The classes
    behind the five names are declared in [ivobject/exceptions.py]; what
    is used of them here is that one raise expression gives one error. *)
Inductive Exception : Type :=
| NotDeclaredArgsException
| ArgWithoutValueException (message : string)
| ViolatedInvariantException (message : string)
| InvariantReturnValueException
| CannotBeChangeException
| AttributeError
| TypeError.

Inductive PyResult (A : Type) : Type :=
| Ok (a : A)
| Raise (e : Exception).
Arguments Ok {A} a.
Arguments Raise {A} e.

Global Instance PyResult_ret : MRet PyResult := λ A a, Ok a.

Global Instance PyResult_bind : MBind PyResult := λ A B k r,
  match r with
  | Ok a => k a
  | Raise e => Raise e
  end.

(** ** Values and the store *)

Definition loc : Type := nat.

Inductive Value : Type :=
| VNone
| VBool (b : bool)
| VInt (n : Z)
| VStr (s : string)
| VTuple (items : list Value)
| VImmutableDict (entries : list (Value * Value))
| VRef (l : loc).

(** A mutable built-in container; a set lists its elements in iteration
    order, a dict its entries in insertion order. *)
Inductive Obj : Type :=
| OList (items : list Value)
| OSet (items : list Value)
| ODict (entries : list (Value * Value)).

Abbreviation Store := (gmap loc Obj).

(** [isinstance(value, dict)], returning the entries that the constructor
    [ImmutableDict(value)] copies.  [ImmutableDict] subclasses [dict]. *)
Definition isinstance_dict (h : Store) (value : Value) : option (list (Value * Value)) :=
  match value with
  | VImmutableDict entries => Some entries
  | VRef l => match h !! l with
              | Some (ODict entries) => Some entries
              | _ => None
              end
  | _ => None
  end.

(** [isinstance(value, (list, set))], returning the elements that
    [tuple(value)] enumerates. *)
Definition isinstance_list_or_set (h : Store) (value : Value) : option (list Value) :=
  match value with
  | VRef l => match h !! l with
              | Some (OList items) => Some items
              | Some (OSet items) => Some items
              | _ => None
              end
  | _ => None
  end.

Definition is_None (value : Value) : bool :=
  match value with
  | VNone => true
  | _ => false
  end.

(** ** Strings *)

Definition dquote : string := String (ascii_of_nat 34) EmptyString.

Fixpoint starts_with (p s : string) : bool :=
  match p, s with
  | EmptyString, _ => true
  | String a p', String b s' => Ascii.eqb a b && starts_with p' s'
  | String _ _, EmptyString => false
  end.

(** [p in s] for strings. *)
Fixpoint contains (p s : string) : bool :=
  starts_with p s ||
  match s with
  | EmptyString => false
  | String _ s' => contains p s'
  end.

(** [s.replace(a, b)] for one-character [a] and [b]. *)
Fixpoint replace (a b : ascii) (s : string) : string :=
  match s with
  | EmptyString => EmptyString
  | String c s' => String (if Ascii.eqb c a then b else c) (replace a b s')
  end.

(** [sep.join(l)]. *)
Fixpoint join (sep : string) (l : list string) : string :=
  match l with
  | [] => ""
  | [s] => s
  | s :: l' => s +:+ sep +:+ join sep l'
  end.

(** ** ImmutableDict *)

(** The methods of [dict] that change the dictionary in place: the seven
    named ones, the in-place union [__ior__] (Python 3.9 and later) and
    [__init__], which stores its arguments when it is called again on an
    existing dictionary. *)
Inductive DictMethod : Type :=
| dict_setitem | dict_delitem | dict_clear | dict_update
| dict_setdefault | dict_pop | dict_popitem
| dict_ior | dict_init.

(** [dict.__init__] called on an existing dictionary with the one keyword
    argument [name=value]: the
    value is stored under the name, in the place of the entry with that
    key if there is one and as a new last entry otherwise.  In the
    universe of values only the string [name] is a key equal to [name]. *)
Fixpoint dict__init__keyword (self : list (Value * Value)) (name : string)
    (value : Value) : list (Value * Value) :=
  match self with
  | [] => [(VStr name, value)]
  | (VStr key, old) :: rest =>
      if String.eqb key name then (VStr key, value) :: rest
      else (VStr key, old) :: dict__init__keyword rest name value
  | entry :: rest => entry :: dict__init__keyword rest name value
  end.

Module ImmutableDict.

(** [__immutable(self, *args, **kwargs)]. *)
Definition __immutable (self : list (Value * Value)) (args : list Value)
    (kwargs : gmap string Value) : PyResult (list (Value * Value)) :=
  Raise CannotBeChangeException.

(** What the class body binds to the name of a method: [__immutable] for
    the seven names it assigns, nothing for the others, which are then
    the methods of [dict]. *)
Definition method (m : DictMethod) :
    option (list (Value * Value) → list Value → gmap string Value
            → PyResult (list (Value * Value))) :=
  match m with
  | dict_setitem => Some __immutable
  | dict_delitem => Some __immutable
  | dict_clear => Some __immutable
  | dict_update => Some __immutable
  | dict_setdefault => Some __immutable
  | dict_pop => Some __immutable
  | dict_popitem => Some __immutable
  | dict_ior => None
  | dict_init => None
  end.

(** [self.update] with the one keyword argument [name=value], on an
    [ImmutableDict]. *)
Definition update_keyword (self : list (Value * Value)) (name : string)
    (value : Value) : PyResult (list (Value * Value)) :=
  match method dict_update with
  | Some bound => bound self [] {[name := value]}
  | None => Ok (dict__init__keyword self name value)
  end.

(** [self.__init__] with the one keyword argument [name=value], on an
    [ImmutableDict]: the binding of the class body if there is one, else
    the method of [dict]. *)
Definition init_keyword (self : list (Value * Value)) (name : string)
    (value : Value) : PyResult (list (Value * Value)) :=
  match method dict_init with
  | Some bound => bound self [] {[name := value]}
  | None => Ok (dict__init__keyword self name value)
  end.

End ImmutableDict.

(** ** ArgsSpec *)

Module ArgsSpec.

(** What [inspect.getfullargspec] reports of a function: the parameter
    names in order (the receiver first), the names of the catch-all
    parameters and the tuple of defaults of the trailing parameters. *)
Record t : Type := {
  args : list string;
  varargs : option string;
  keywords : option string;
  defaults : option (list Value)
}.

(** A callable is a Python function, whose signature can be read, or a
    built-in or slot wrapper, on which [getfullargspec] raises
    [TypeError]. *)
Inductive Callable : Type :=
| Function (signature : t)
| BuiltIn.

Definition __init__ (method : Callable) : PyResult t :=
  match method with
  | Function signature => Ok signature
  | BuiltIn => Raise NotDeclaredArgsException
  end.

End ArgsSpec.

(** ** Classes and instances *)

Definition MIN_NUMBER_ARGS : nat := 1.

(** An instance: what [self.__class__.__name__] and [self.__init__] give,
    and the instance dictionary. *)
Record Instance : Type := {
  type_name : string;
  init : ArgsSpec.Callable;
  __dict__ : gmap string Value
}.

(** A member of a class as [inspect.getmembers] lists it: its name, the
    text [str(method)] and, for a function, what calling it with two
    arguments returns. *)
Record Member : Type := {
  member_name : string;
  member_str : string;
  member_call : Instance → Instance → PyResult Value
}.

(** A concrete subtype of [ValueObject].  [members] is the listing of
    [inspect.getmembers(cls)], which is sorted by name. *)
Record Class : Type := {
  __name__ : string;
  __init__ : ArgsSpec.Callable;
  members : list Member
}.

(** ** ValueObject: the construction pipeline *)

Module ValueObject.

(** [super(ValueObject, cls).__new__(cls)]: a fresh instance of [cls] with
    an empty dictionary. *)
Definition object__new__ (cls : Class) : Instance :=
  {| type_name := __name__ cls; init := __init__ cls; __dict__ := ∅ |}.

(** [dict(pairs)]: of two pairs with one key, the later one stays. *)
Definition dict {V : Type} (pairs : list (string * V)) : gmap string V :=
  foldl (λ d kv, <[kv.1 := kv.2]> d) ∅ pairs.

(** [d.update(other)]: the entries of [other] replace those of [d]. *)
Definition update {V : Type} (d other : gmap string V) : gmap string V :=
  other ∪ d.

Definition check_class_initialization (self : Instance) (args_spec : ArgsSpec.t)
    (args : list Value) (kwargs : gmap string Value) : PyResult unit :=
  let init_constructor_without_arguments :=
    (length (ArgsSpec.args args_spec) <=? MIN_NUMBER_ARGS)%nat in
  if init_constructor_without_arguments then Raise NotDeclaredArgsException
  else if existsb is_None args then
    Raise (ArgWithoutValueException ("Missing value for " +:+ type_name self))
  else if existsb is_None (map_to_list kwargs).*2 then
    Raise (ArgWithoutValueException ("Missing value for " +:+ type_name self))
  else Ok ().

(** One turn of the loop over [kwargs.items()]: two independent tests on
    the value read from the item, each assigning [kwargs[arg]]. *)
Definition replace_mutable_kwarg (h : Store) (arg : string) (value : Value)
    (kwargs : gmap string Value) : gmap string Value :=
  let kwargs :=
    match isinstance_dict h value with
    | Some entries => <[arg := VImmutableDict entries]> kwargs
    | None => kwargs
    end in
  match isinstance_list_or_set h value with
  | Some items => <[arg := VTuple items]> kwargs
  | None => kwargs
  end.

Definition replace_mutable_kwargs_with_immutable_types (h : Store)
    (kwargs : gmap string Value) : gmap string Value :=
  map_fold (replace_mutable_kwarg h) kwargs kwargs.

(** One turn of the loop that fills [sanitized_args]. *)
Definition sanitize_arg (h : Store) (arg : Value) : Value :=
  match isinstance_dict h arg with
  | Some entries => VImmutableDict entries
  | None =>
      match isinstance_list_or_set h arg with
      | Some items => VTuple items
      | None => arg
      end
  end.

Definition assign_instance_arguments (h : Store) (self : Instance)
    (args_spec : ArgsSpec.t) (args : list Value) (kwargs : gmap string Value) : Instance :=
  let defaults := default [] (ArgsSpec.defaults args_spec) in
  let d := update (__dict__ self)
             (dict (zip (reverse (drop 1 (ArgsSpec.args args_spec))) (reverse defaults))) in
  let sanitized_args := sanitize_arg h <$> args in
  let d := update d
             (dict (zip (drop 1 (ArgsSpec.args args_spec)) sanitized_args
                    ++ map_to_list kwargs)) in
  {| type_name := type_name self; init := init self; __dict__ := d |}.

Definition invariant_execute (self : Instance)
    (invariant : Instance → Instance → PyResult Value) : PyResult bool :=
  return_value ← invariant self self;
  match return_value with
  | VBool b => Ok b
  | _ => Raise InvariantReturnValueException
  end.

Definition is_invariant_method_with_name (method : Member) (name : string) : bool :=
  contains name (member_str method) && negb (contains "__init__" (member_str method)).

Definition is_invariant (method : Member) : bool :=
  is_invariant_method_with_name method "invariant_fn".

Definition is_param_invariant (method : Member) : bool :=
  is_invariant_method_with_name method "param_invariant_fn".

(** [inspect.getmembers(cls, predicate)]. *)
Definition getmembers (cls : Class) (predicate : Member → bool) : list Member :=
  filter (λ member, predicate member = true) (members cls).

Definition obtain_invariants (cls : Class) : list Member :=
  let param_invariants := getmembers cls is_param_invariant in
  let invariants := getmembers cls is_invariant in
  param_invariants ++ invariants.

Definition violation_message (self : Instance) (invariant : Member) : string :=
  "Value in " +:+ type_name self +:+ " violates " +:+ dquote
  +:+ replace "_" " " (member_name invariant) +:+ dquote +:+ " invariant rule".

(** The loop of [check_invariants] over the invariants still to run.  The
    first component lists, in order, the names of the invariants that were
    called. *)
Fixpoint run_invariants (self : Instance) (invariants : list Member) : list string * PyResult unit :=
  match invariants with
  | [] => ([], Ok ())
  | invariant :: rest =>
      match invariant_execute self (member_call invariant) with
      | Raise e => ([member_name invariant], Raise e)
      | Ok false =>
          ([member_name invariant],
           Raise (ViolatedInvariantException (violation_message self invariant)))
      | Ok true =>
          let '(called, r) := run_invariants self rest in
          (member_name invariant :: called, r)
      end
  end.

Definition check_invariants (cls : Class) (self : Instance) : list string * PyResult unit :=
  run_invariants self (obtain_invariants cls).

(** [__new__(cls, *args, **kwargs)] in store [h].  The first component is
    the list of invariant calls made, the second the outcome.  The call
    of the subtype's [__init__] that follows when the type itself is
    called is no part of [__new__]. *)
Definition __new__ (h : Store) (cls : Class) (args : list Value)
    (kwargs : gmap string Value) : list string * PyResult Instance :=
  let self := object__new__ cls in
  match ArgsSpec.__init__ (init self) with
  | Raise e => ([], Raise e)
  | Ok args_spec =>
      match check_class_initialization self args_spec args kwargs with
      | Raise e => ([], Raise e)
      | Ok _ =>
          let kwargs := replace_mutable_kwargs_with_immutable_types h kwargs in
          let self := assign_instance_arguments h self args_spec args kwargs in
          let '(called, r) := check_invariants cls self in
          (called, _ ← r; Ok self)
      end
  end.

(** ** ValueObject: attribute interception *)

Definition __setattr__ (self : Instance) (name : string) (value : Value) : PyResult Instance :=
  Raise CannotBeChangeException.

(** [ValueObject] defines no [__delattr__]: [del self.name] reaches
    [object.__delattr__], which removes the entry from the instance
    dictionary. *)
Definition object__delattr__ (self : Instance) (name : string) : PyResult Instance :=
  match __dict__ self !! name with
  | Some _ =>
      Ok {| type_name := type_name self; init := init self;
            __dict__ := delete name (__dict__ self) |}
  | None => Raise AttributeError
  end.

(** [getattr(self, name)] and [self.name] for a name that is no attribute
    of the class of [self]: the entry of the instance dictionary.  For
    the name of a class attribute (a method, the [hash] property) the
    lookup goes through the class instead; the statements below that
    read a declared field require its name to be no class attribute. *)
Definition getattr (self : Instance) (name : string) : PyResult Value :=
  match __dict__ self !! name with
  | Some value => Ok value
  | None => Raise AttributeError
  end.

(** ** ValueObject: equality, representation and hash *)

(** The right operand of a comparison: a value of the universe, or an
    object with an instance dictionary of its own. *)
Inductive Operand : Type :=
| OfValue (value : Value)
| OfInstance (o : Instance).

(** [other.__dict__].  An [ImmutableDict] is an instance of a class
    written in Python and has an instance dictionary, which is empty;
    the other values have none. *)
Definition operand__dict__ (other : Operand) : PyResult (gmap string Value) :=
  match other with
  | OfValue (VImmutableDict _) => Ok ∅
  | OfValue _ => Raise AttributeError
  | OfInstance o => Ok (__dict__ o)
  end.

Section Builtins.

(** The built-in operations on field values that the methods below rely
    on: [a == b], [str(a)] and the hash of a string. *)
Variable value_eq : Value → Value → bool.
Variable value_str : Value → string.
Variable str_hash : string → Z.

(** [a == b] on two dictionaries: equal sizes, and every key of [a] is a
    key of [b] with an equal value. *)
Definition dict_eq (a b : gmap string Value) : bool :=
  (size a =? size b)%nat &&
  forallb (λ kv, match b !! kv.1 with
                 | Some vb => value_eq kv.2 vb
                 | None => false
                 end) (map_to_list a).

Definition __eq__ (self : Instance) (other : Operand) : PyResult bool :=
  match other with
  | OfValue VNone => Ok false
  | _ => d ← operand__dict__ other; Ok (dict_eq (__dict__ self) d)
  end.

Definition __ne__ (self : Instance) (other : Operand) : PyResult bool :=
  d ← operand__dict__ other; Ok (negb (dict_eq (__dict__ self) d)).

Definition __repr__ (self : Instance) : PyResult string :=
  args_spec ← ArgsSpec.__init__ (init self);
  args_values ← mapM (λ arg, value ← getattr self arg;
                             Ok (arg +:+ "=" +:+ value_str value))
                     (drop 1 (ArgsSpec.args args_spec));
  Ok (type_name self +:+ "(" +:+ join ", " args_values +:+ ")").

Definition __str__ (self : Instance) : PyResult string :=
  __repr__ self.

Definition hash (self : Instance) : PyResult Z :=
  r ← __repr__ self; Ok (str_hash r).

Definition __hash__ (self : Instance) : PyResult Z :=
  hash self.

End Builtins.

End ValueObject.

(** ** Built-in containers around the value object *)

(** The mutating operations of the built-in sequences and sets. *)
Inductive SeqMethod : Type :=
| seq_setitem | seq_delitem | seq_append | seq_extend | seq_insert
| seq_remove | seq_pop | seq_clear | seq_sort | seq_reverse
| seq_add | seq_discard | seq_update.

(** A tuple supports neither item assignment nor item deletion and has
    none of the other methods. *)
Definition tuple_method (m : SeqMethod) (self : list Value) (args : list Value)
    : PyResult (list Value) :=
  match m with
  | seq_setitem => Raise TypeError
  | seq_delitem => Raise TypeError
  | _ => Raise AttributeError
  end.



(** The value is not itself a mutable container. *)
Definition immutable_container (value : Value) : bool :=
  match value with
  | VRef _ => false
  | _ => true
  end.



(** ** Sample subtypes *)

(** The signature of [def __init__(self, a, b, ...)] without defaults. *)
Definition plain (args : list string) : ArgsSpec.t :=
  {| ArgsSpec.args := args; ArgsSpec.varargs := None;
     ArgsSpec.keywords := None; ArgsSpec.defaults := None |}.

Definition signature (args : list string) : ArgsSpec.Callable :=
  ArgsSpec.Function (plain args).

(** The constructor as a member of its class. *)
Definition init_member (cls_name : string) : Member :=
  {| member_name := "__init__";
     member_str := "<function " +:+ cls_name +:+ ".__init__ at 0x7f41c05d3a60>";
     member_call := λ _ _, Ok VNone |}.

(** [class Point(ValueObject): def __init__(self, x, y)]. *)
Definition Point : Class :=
  {| __name__ := "Point"; __init__ := signature ["self"; "x"; "y"];
     members := [init_member "Point"] |}.

(** A second type with the fields of [Point]. *)
Definition Pixel : Class :=
  {| __name__ := "Pixel"; __init__ := signature ["self"; "x"; "y"];
     members := [init_member "Pixel"] |}.

(** The instances that [Point(1, 2)] and [Pixel(1, 2)] return. *)
Definition point_1_2 : Instance :=
  {| type_name := "Point"; init := signature ["self"; "x"; "y"];
     __dict__ := <["x" := VInt 1]> (<["y" := VInt 2]> ∅) |}.

Definition pixel_1_2 : Instance :=
  {| type_name := "Pixel"; init := signature ["self"; "x"; "y"];
     __dict__ := <["x" := VInt 1]> (<["y" := VInt 2]> ∅) |}.


(** [class Empty(ValueObject): def __init__(self)]. *)
Definition Empty : Class :=
  {| __name__ := "Empty"; __init__ := signature ["self"];
     members := [init_member "Empty"] |}.

(** A subtype that defines no [__init__]: [self.__init__] is the slot
    wrapper of [object], whose signature reads [(self, *args, **kwargs)]. *)
Definition Bare : Class :=
  {| __name__ := "Bare";
     __init__ := ArgsSpec.Function
       {| ArgsSpec.args := ["self"]; ArgsSpec.varargs := Some "args";
          ArgsSpec.keywords := Some "kwargs"; ArgsSpec.defaults := None |};
     members := [] |}.

(** A subtype whose [__init__] is a callable that [inspect] cannot
    introspect. *)
Definition Opaque : Class :=
  {| __name__ := "Opaque"; __init__ := ArgsSpec.BuiltIn; members := [] |}.


(** [class Span(ValueObject): def __init__(self, start, size=1, unit='s')]. *)
Definition span_signature : ArgsSpec.t :=
  {| ArgsSpec.args := ["self"; "start"; "size"; "unit"]; ArgsSpec.varargs := None;
     ArgsSpec.keywords := None; ArgsSpec.defaults := Some [VInt 1; VStr "s"] |}.

Definition Span : Class :=
  {| __name__ := "Span"; __init__ := ArgsSpec.Function span_signature;
     members := [init_member "Span"] |}.

(** [return self.low < self.high], on integers. *)
Definition low_below_high (cls self : Instance) : PyResult Value :=
  low ← ValueObject.getattr self "low";
  high ← ValueObject.getattr self "high";
  match low, high with
  | VInt a, VInt b => Ok (VBool (a <? b)%Z)
  | _, _ => Raise TypeError
  end.

(** [class Range(ValueObject): def __init__(self, low, high)] with the
    member [low_below_high]; [text] is what [str] gives for that member. *)
Definition Range (text : string) : Class :=
  {| __name__ := "Range"; __init__ := signature ["self"; "low"; "high"];
     members := [init_member "Range";
                 {| member_name := "low_below_high"; member_str := text;
                    member_call := low_below_high |}] |}.

Definition invariant_text : string :=
  "<function invariant.<locals>.invariant_fn at 0x7f41c05d3b80>".

Definition param_invariant_text : string :=
  "<function param_invariant.<locals>.param_invariant_fn at 0x7f41c05d3c10>".

(** [return self.amount >= 0], on integers. *)
Definition amount_not_negative (cls self : Instance) : PyResult Value :=
  amount ← ValueObject.getattr self "amount";
  match amount with
  | VInt a => Ok (VBool (0 <=? a)%Z)
  | _ => Raise TypeError
  end.

(** [return isinstance(self.amount, int)]. *)
Definition amount_is_int (cls self : Instance) : PyResult Value :=
  amount ← ValueObject.getattr self "amount";
  match amount with
  | VInt _ => Ok (VBool true)
  | VBool _ => Ok (VBool true)
  | _ => Ok (VBool false)
  end.

(** [class Money(ValueObject): def __init__(self, amount)] with a general
    invariant [amount_not_negative] and a parameter invariant
    [check_amount_is_int]. *)
Definition Money : Class :=
  {| __name__ := "Money"; __init__ := signature ["self"; "amount"];
     members := [init_member "Money";
                 {| member_name := "amount_not_negative"; member_str := invariant_text;
                    member_call := amount_not_negative |};
                 {| member_name := "check_amount_is_int"; member_str := param_invariant_text;
                    member_call := amount_is_int |}] |}.

(** ** Sample built-ins, for scalars *)

Definition scalar_eq (a b : Value) : bool :=
  match a, b with
  | VNone, VNone => true
  | VBool x, VBool y => Bool.eqb x y
  | VInt x, VInt y => (x =? y)%Z
  | VBool x, VInt y => (Z.b2z x =? y)%Z
  | VInt x, VBool y => (x =? Z.b2z y)%Z
  | VStr x, VStr y => String.eqb x y
  | _, _ => false
  end.

Definition scalar_str (a : Value) : string :=
  match a with
  | VNone => "None"
  | VBool true => "True"
  | VBool false => "False"
  | VInt n => pretty n
  | VStr s => s
  | _ => "..."
  end.

Fixpoint sample_hash (s : string) : Z :=
  match s with
  | EmptyString => 0
  | String c s' => Z.of_nat (nat_of_ascii c) + 31 * sample_hash s'
  end.

(** ** Notions of the specification *)

(** The default declared for the parameter at position [j] of a signature:
    defaults belong to the trailing parameters, the last default to the
    last parameter. *)
Definition declared_default (args_spec : ArgsSpec.t) (j : nat) : option Value :=
  let defaults := default [] (ArgsSpec.defaults args_spec) in
  let n := length (ArgsSpec.args args_spec) in
  if decide (j < n ∧ n ≤ j + length defaults)%nat
  then defaults !! (j + length defaults - n)%nat
  else None.

(** Two field-name-to-value mappings are equal: the same names, bound to
    values that compare equal. *)
Definition mappings_equal (value_eq : Value → Value → bool)
    (a b : gmap string Value) : Prop :=
  ∀ name : string,
    match a !! name, b !! name with
    | Some va, Some vb => value_eq va vb = true
    | None, None => True
    | _, _ => False
    end.

(** The canonical string representation: the type name, then the
    [field=value] pairs in declared parameter order, separated by commas
    and enclosed in parentheses. *)
Definition canonical_representation (value_str : Value → string)
    (name : string) (fields : list string) (d : gmap string Value) : string :=
  name +:+ "(" +:+
  join ", " ((λ field, field +:+ "=" +:+ value_str (default VNone (d !! field)))
             <$> fields)
  +:+ ")".

(** The arguments pass validation: the constructor declares a field
    beyond the receiver and no positional or named argument is [None]. *)
Definition validated (args_spec : ArgsSpec.t) (args : list Value)
    (kwargs : gmap string Value) : Prop :=
  (1 < length (ArgsSpec.args args_spec))%nat
  ∧ (VNone ∉ args)
  ∧ ∀ name, kwargs !! name ≠ Some VNone.

(** The invariant fails on [self] with the error [e]: it raises [e]
    itself, or it returns [False] and [e] is the violation error that
    names the type and the invariant, or it returns a value that is no
    boolean and [e] is the return-value error. *)
Definition invariant_fails (self : Instance) (invariant : Member) (e : Exception) : Prop :=
  member_call invariant self self = Raise e
  ∨ (member_call invariant self self = Ok (VBool false)
     ∧ e = ViolatedInvariantException (ValueObject.violation_message self invariant))
  ∨ (∃ value, member_call invariant self self = Ok value
              ∧ (∀ b, value ≠ VBool b)
              ∧ e = InvariantReturnValueException).

(** [name] is no attribute of the class: it is not among the names that
    [inspect.getmembers(cls)] lists. *)
Definition no_class_attribute (cls : Class) (name : string) : Prop :=
  name ∉ member_name <$> members cls.



(** A store with a dict and a list of scalars: [prices = {'tea': 3}] at
    location 0 and [items = [1, 2, 3]] at location 1. *)
Definition flat_store : Store :=
  <[0%nat := ODict [(VStr "tea", VInt 3)]]> (<[1%nat := OList [VInt 1; VInt 2; VInt 3]]> ∅).

(** [class Basket(ValueObject): def __init__(self, items, prices)]. *)
Definition basket_signature : ArgsSpec.t :=
  {| ArgsSpec.args := ["self"; "items"; "prices"]; ArgsSpec.varargs := None;
     ArgsSpec.keywords := None; ArgsSpec.defaults := None |}.

Definition Basket : Class :=
  {| __name__ := "Basket"; __init__ := ArgsSpec.Function basket_signature;
     members := [init_member "Basket"] |}.

(** The instance that [Basket(items, prices=prices)] returns in
    [flat_store]. *)
Definition basket : Instance :=
  {| type_name := "Basket"; init := ArgsSpec.Function basket_signature;
     __dict__ := <["items" := VTuple [VInt 1; VInt 2; VInt 3]]>
                   (<["prices" := VImmutableDict [(VStr "tea", VInt 3)]]> ∅) |}.

(** [class Tags(ValueObject): def __init__(self, name, tags=[])], the
    default list being the object at location 0. *)
Definition Tags : Class :=
  {| __name__ := "Tags";
     __init__ := ArgsSpec.Function
       {| ArgsSpec.args := ["self"; "name"; "tags"]; ArgsSpec.varargs := None;
          ArgsSpec.keywords := None; ArgsSpec.defaults := Some [VRef 0%nat] |};
     members := [init_member "Tags"] |}.

(** The instance as bound by a construction call that passed validation,
    before its invariants run. *)
Definition bound_instance (h : Store) (cls : Class) (args_spec : ArgsSpec.t)
    (args : list Value) (kwargs : gmap string Value) : Instance :=
  ValueObject.assign_instance_arguments h (ValueObject.object__new__ cls) args_spec args
    (ValueObject.replace_mutable_kwargs_with_immutable_types h kwargs).

(** [class Note(ValueObject): def __init__(self, text, author=None)]. *)
Definition note_signature : ArgsSpec.t :=
  {| ArgsSpec.args := ["self"; "text"; "author"]; ArgsSpec.varargs := None;
     ArgsSpec.keywords := None; ArgsSpec.defaults := Some [VNone] |}.

Definition Note : Class :=
  {| __name__ := "Note"; __init__ := ArgsSpec.Function note_signature;
     members := [init_member "Note"] |}.

(** * Properties *)

Import ValueObject.

(** ** Dictionaries *)

Section dict_facts.

Context {V : Type}.
Implicit Types (pairs : list (string * V)) (d : gmap string V).

Lemma dict_snoc pairs k v : dict (pairs ++ [(k, v)]) = <[k := v]> (dict pairs).
Proof. unfold dict. by rewrite foldl_app. Qed.

Lemma dict_list_to_map pairs : dict pairs = list_to_map (reverse pairs).
Proof.
  induction pairs as [|[k v] pairs IH] using rev_ind; [done|].
  by rewrite dict_snoc, reverse_snoc, IH.
Qed.

Lemma dict_NoDup pairs : NoDup pairs.*1 → dict pairs = list_to_map pairs.
Proof.
  intros Hnd. rewrite dict_list_to_map. apply list_to_map_proper.
  - by rewrite reverse_Permutation.
  - apply reverse_Permutation.
Qed.

Lemma dict_app pairs1 pairs2 :
  dict (pairs1 ++ pairs2) = update (dict pairs1) (dict pairs2).
Proof.
  unfold update. by rewrite !dict_list_to_map, reverse_app, list_to_map_app.
Qed.

Lemma dict_items d : dict (map_to_list d) = d.
Proof.
  rewrite dict_NoDup by apply NoDup_fst_map_to_list. apply list_to_map_to_list.
Qed.

Lemma NoDup_zip_fst (ks : list string) (vs : list V) :
  NoDup ks → NoDup (zip ks vs).*1.
Proof.
  intros Hnd. revert vs. induction Hnd as [|k ks Hk Hnd IH]; intros [|v vs]; simpl;
    try constructor; [|by apply IH].
  rewrite list_elem_of_fmap. intros [[k' v'] [-> Hin]].
  apply elem_of_zip_l in Hin. done.
Qed.

Lemma dict_zip_lookup (ks : list string) (vs : list V) i k :
  NoDup ks → ks !! i = Some k → dict (zip ks vs) !! k = vs !! i.
Proof.
  intros Hnd. rewrite dict_NoDup by by apply NoDup_zip_fst.
  revert vs i. induction Hnd as [|k0 ks Hk Hnd IH]; intros vs i Hi; [done|].
  destruct vs as [|v vs]; simpl.
  { by rewrite lookup_empty, lookup_nil. }
  destruct i as [|i]; simplify_eq/=.
  - by rewrite lookup_insert_eq.
  - rewrite lookup_insert_ne; [by apply IH|].
    intros ->. apply Hk. by eapply list_elem_of_lookup_2.
Qed.

End dict_facts.

(** ** Sanitization *)

Lemma isinstance_exclusive h value entries :
  isinstance_dict h value = Some entries → isinstance_list_or_set h value = None.
Proof.
  destruct value as [| | | | | |l]; simpl; try done.
  by destruct (h !! l) as [[]|].
Qed.

Lemma replace_mutable_kwarg_lookup_eq h arg value (kwargs : gmap string Value) :
  kwargs !! arg = Some value →
  replace_mutable_kwarg h arg value kwargs !! arg = Some (sanitize_arg h value).
Proof.
  intros Hk. unfold replace_mutable_kwarg, sanitize_arg.
  destruct (isinstance_dict h value) as [entries|] eqn:Hd.
  - by rewrite (isinstance_exclusive _ _ _ Hd), lookup_insert_eq.
  - destruct (isinstance_list_or_set h value); by rewrite ?lookup_insert_eq.
Qed.

Lemma replace_mutable_kwarg_lookup_ne h arg value (kwargs : gmap string Value) k :
  arg ≠ k →
  replace_mutable_kwarg h arg value kwargs !! k = kwargs !! k.
Proof.
  intros Hk. unfold replace_mutable_kwarg.
  destruct (isinstance_dict h value), (isinstance_list_or_set h value);
    by rewrite ?lookup_insert_ne.
Qed.

Lemma replace_mutable_kwargs_lookup h (kwargs : gmap string Value) k :
  replace_mutable_kwargs_with_immutable_types h kwargs !! k
  = sanitize_arg h <$> kwargs !! k.
Proof.
  unfold replace_mutable_kwargs_with_immutable_types.
  cut (∀ m : gmap string Value, m ⊆ kwargs →
        ∀ k, map_fold (replace_mutable_kwarg h) kwargs m !! k
             = match m !! k with
               | Some value => Some (sanitize_arg h value)
               | None => kwargs !! k
               end).
  { intros Hcut. rewrite (Hcut kwargs) by done.
    by destruct (kwargs !! k). }
  apply (map_fold_weak_ind
           (λ r (m : gmap string Value), m ⊆ kwargs →
              ∀ k, r !! k = match m !! k with
                            | Some value => Some (sanitize_arg h value)
                            | None => kwargs !! k
                            end)).
  - intros _ k'. by rewrite lookup_empty.
  - intros i x m r Hi IH Hsub k'.
    assert (m ⊆ kwargs) as Hm.
    { etrans; [|exact Hsub]. by apply insert_subseteq. }
    assert (kwargs !! i = Some x) as Hx.
    { eapply lookup_weaken; [|exact Hsub]. apply lookup_insert_eq. }
    destruct (decide (i = k')) as [->|Hne].
    + rewrite lookup_insert_eq. apply replace_mutable_kwarg_lookup_eq.
      by rewrite (IH Hm), Hi.
    + rewrite lookup_insert_ne by done.
      rewrite replace_mutable_kwarg_lookup_ne by done. by apply IH.
Qed.

Lemma replace_mutable_kwargs_fmap h (kwargs : gmap string Value) :
  replace_mutable_kwargs_with_immutable_types h kwargs = sanitize_arg h <$> kwargs.
Proof.
  apply map_eq. intros k. by rewrite replace_mutable_kwargs_lookup, lookup_fmap.
Qed.

(** ** Field binding *)

Lemma assign_instance_arguments_lookup h cls args_spec args
    (kwargs : gmap string Value) i field :
  NoDup (ArgsSpec.args args_spec) →
  drop 1 (ArgsSpec.args args_spec) !! i = Some field →
  __dict__ (assign_instance_arguments h (object__new__ cls) args_spec args kwargs) !! field
  = match kwargs !! field with
    | Some value => Some value
    | None =>
        match args !! i with
        | Some value => Some (sanitize_arg h value)
        | None => declared_default args_spec (S i)
        end
    end.
Proof.
  intros Hnd Hi. simpl. unfold update.
  assert (NoDup (drop 1 (ArgsSpec.args args_spec))) as Hnd'.
  { eapply sublist_NoDup; [exact Hnd|apply sublist_drop]. }
  rewrite dict_app, dict_items. unfold update.
  rewrite !lookup_union, lookup_empty.
  destruct (kwargs !! field) as [value|]; simpl.
  { by destruct (dict _ !! field), (dict _ !! field). }
  rewrite (dict_zip_lookup _ _ i) by done.
  rewrite list_lookup_fmap.
  destruct (args !! i) as [value|]; simpl.
  { by destruct (dict _ !! field). }
  set (fields := drop 1 (ArgsSpec.args args_spec)) in *.
  set (defaults := default [] (ArgsSpec.defaults args_spec)).
  assert (i < length fields)%nat as Hlt by by eapply lookup_lt_Some.
  assert (length (ArgsSpec.args args_spec) = S (length fields)) as Hlen.
  { unfold fields in *. rewrite length_drop in *. lia. }
  rewrite (dict_zip_lookup _ _ (length fields - S i)); cycle 1.
  { by rewrite reverse_Permutation. }
  { apply reverse_lookup_Some. split; [|lia].
    rewrite <-Hi. f_equal. lia. }
  unfold declared_default. fold defaults. rewrite Hlen.
  case_decide as Hdef.
  - rewrite reverse_lookup by lia.
    replace (S i + length defaults - S (length fields))%nat
      with (length defaults - S (length fields - S i))%nat by lia.
    by destruct (defaults !! _).
  - rewrite lookup_ge_None_2; [done|]. rewrite length_reverse. lia.
Qed.

(** ** The construction call *)

Lemma new_Ok h cls args (kwargs : gmap string Value) called self :
  __new__ h cls args kwargs = (called, Ok self) →
  ∃ args_spec,
    __init__ cls = ArgsSpec.Function args_spec
    ∧ check_class_initialization (object__new__ cls) args_spec args kwargs = Ok ()
    ∧ self = assign_instance_arguments h (object__new__ cls) args_spec args
               (replace_mutable_kwargs_with_immutable_types h kwargs)
    ∧ check_invariants cls self = (called, Ok ()).
Proof.
  unfold __new__. simpl.
  destruct (__init__ cls) as [args_spec|] eqn:Hinit; simpl; [|done].
  destruct (check_class_initialization _ _ _ _) as [[]|] eqn:Hcheck; [|done].
  destruct (check_invariants _ _) as [called' [[]|]] eqn:Hinv; simpl; [|done].
  intros [= <- <-]. eauto.
Qed.

(** C1.  The precedence law of field binding: in the instance that a
    construction call returns, each declared field (the parameters after
    the receiver) holds the sanitized named argument of that name if one
    was supplied, otherwise the sanitized positional argument at the
    field's position, otherwise the default declared for that parameter. *)
Theorem precedence_named_positional_default h cls args_spec args
    (kwargs : gmap string Value) called self i field :
  __init__ cls = ArgsSpec.Function args_spec →
  NoDup (ArgsSpec.args args_spec) →
  __new__ h cls args kwargs = (called, Ok self) →
  drop 1 (ArgsSpec.args args_spec) !! i = Some field →
  __dict__ self !! field
  = match kwargs !! field with
    | Some value => Some (sanitize_arg h value)
    | None =>
        match args !! i with
        | Some value => Some (sanitize_arg h value)
        | None => declared_default args_spec (S i)
        end
    end.
Proof.
  intros Hinit Hnd Hnew Hi.
  apply new_Ok in Hnew as (args_spec' & Hinit' & _ & -> & _).
  rewrite Hinit in Hinit'. injection Hinit' as <-.
  rewrite (assign_instance_arguments_lookup _ _ _ _ _ i) by done.
  rewrite replace_mutable_kwargs_lookup. by destruct (kwargs !! field).
Qed.

Lemma precedence_named_positional_default_witness :
  ∃ called self,
    __new__ ∅ Span [VInt 7] (<["start" := VInt 9]> ∅) = (called, Ok self)
    ∧ __dict__ self !! "start" = Some (VInt 9)
    ∧ __dict__ self !! "size" = Some (VInt 1).
Proof.
  destruct (__new__ ∅ Span [VInt 7] (<["start" := VInt 9]> ∅))
    as [called [self|e]] eqn:Hnew; [|vm_compute in Hnew; discriminate].
  exists called, self. split; [reflexivity|].
  assert (NoDup (ArgsSpec.args span_signature)) as Hnd.
  { apply (bool_decide_unpack _). vm_compute. reflexivity. }
  split.
  - rewrite (precedence_named_positional_default ∅ Span span_signature
               [VInt 7] (<["start" := VInt 9]> ∅) called self 0 "start"
               eq_refl Hnd Hnew eq_refl).
    vm_compute. reflexivity.
  - rewrite (precedence_named_positional_default ∅ Span span_signature
               [VInt 7] (<["start" := VInt 9]> ∅) called self 1 "size"
               eq_refl Hnd Hnew eq_refl).
    vm_compute. reflexivity.
Defined.

(** ** Substrings *)

Lemma starts_with_contains p s : starts_with p s = true → contains p s = true.
Proof. intros Hp. destruct s; simpl; rewrite Hp; done. Qed.

Lemma contains_tail a p s : contains (String a p) s = true → contains p s = true.
Proof.
  induction s as [|b s IH]; [done|].
  cbn [contains starts_with]. intros [Hhd|Htl]%orb_true_iff.
  - apply andb_true_iff in Hhd as [_ Hhd].
    apply orb_true_iff. right. by apply starts_with_contains.
  - apply orb_true_iff. right. by apply IH.
Qed.

Lemma contains_suffix p q s : contains (p +:+ q) s = true → contains q s = true.
Proof.
  induction p as [|a p IH]; [done|].
  intros Hc. apply IH. by eapply contains_tail.
Qed.

(** ** Invariant discovery *)

(** Every member that the parameter-invariant test accepts is accepted by
    the general-invariant test as well. *)
Lemma is_param_invariant_is_invariant method :
  is_param_invariant method = true → is_invariant method = true.
Proof.
  unfold is_param_invariant, is_invariant, is_invariant_method_with_name.
  intros [Hp Hi]%andb_true_iff. apply andb_true_iff. split; [|done].
  by apply (contains_suffix "param_").
Qed.

Lemma param_invariants_among_invariants cls method :
  method ∈ getmembers cls is_param_invariant → method ∈ getmembers cls is_invariant.
Proof.
  unfold getmembers. rewrite !list_elem_of_filter. intros [Hp Hin].
  split; [|done]. by apply is_param_invariant_is_invariant.
Qed.

(** When every invariant holds, the calls made are those of the whole
    list, in order. *)
Lemma run_invariants_Ok self invariants called :
  run_invariants self invariants = (called, Ok ()) →
  called = member_name <$> invariants.
Proof.
  revert called. induction invariants as [|invariant rest IH]; intros called; simpl.
  { by intros [= <-]. }
  destruct (invariant_execute self (member_call invariant)) as [[]|]; [|done..].
  destruct (run_invariants self rest) as [called' r] eqn:Hrest.
  intros [= <- ->]. f_equal. by apply IH.
Qed.

(** C2.  After [Point(1, 2)] is constructed, setting [x] raises
    [CannotBeChangeException], but deleting [x] raises nothing: the entry
    leaves the instance dictionary. *)
Theorem delete_after_construction_succeeds :
  ∃ point',
    __new__ ∅ Point [VInt 1; VInt 2] ∅ = ([], Ok point_1_2)
    ∧ __dict__ point_1_2 !! "x" = Some (VInt 1)
    ∧ __setattr__ point_1_2 "x" (VInt 5) = Raise CannotBeChangeException
    ∧ object__delattr__ point_1_2 "x" = Ok point'
    ∧ __dict__ point' !! "x" = None
    ∧ __dict__ point' !! "y" = Some (VInt 2).
Proof.
  eexists. split; [vm_compute; reflexivity|].
  split; [vm_compute; reflexivity|].
  split; [reflexivity|].
  split; [vm_compute; reflexivity|].
  split; vm_compute; reflexivity.
Qed.

(** C3.  Constructing [Money(5)], whose type declares the parameter
    invariant [check_amount_is_int] and the general invariant
    [amount_not_negative], succeeds after three invariant calls: the
    parameter invariant runs first and then a second time, after the
    general invariant. *)
Theorem parameter_invariant_runs_twice :
  ∃ money,
    __new__ ∅ Money [VInt 5] ∅
    = (["check_amount_is_int"; "amount_not_negative"; "check_amount_is_int"], Ok money)
    ∧ (member_name <$> getmembers Money is_param_invariant) = ["check_amount_is_int"]
    ∧ (member_name <$> getmembers Money is_invariant)
      = ["amount_not_negative"; "check_amount_is_int"].
Proof.
  eexists. split; [vm_compute; reflexivity|].
  split; vm_compute; reflexivity.
Qed.

Lemma getmembers_filter cls predicate :
  getmembers cls predicate = List.filter predicate (members cls).
Proof.
  unfold getmembers. induction (members cls) as [|member rest IH]; [done|].
  rewrite filter_cons. simpl. rewrite IH.
  destruct (predicate member); by case_decide.
Qed.

(** The first invariant to be called that evaluates false ends the loop
    with its own message. *)
Lemma run_invariants_first_false self invariant rest :
  member_call invariant self self = Ok (VBool false) →
  run_invariants self (invariant :: rest)
  = ([member_name invariant],
     Raise (ViolatedInvariantException (violation_message self invariant))).
Proof. intros Hcall. simpl. unfold invariant_execute. by rewrite Hcall. Qed.

(** C4.  Whatever text [str] gives for the member [low_below_high], as
    long as the general-invariant test accepts it, [Range(5, 1)] fails
    with [ViolatedInvariantException]; the message names the type [Range]
    and the invariant as [low below high]. *)
Theorem range_violates_low_below_high h text :
  contains "invariant_fn" text = true →
  contains "__init__" text = false →
  ∃ message,
    __new__ h (Range text) [VInt 5; VInt 1] ∅
    = (["low_below_high"], Raise (ViolatedInvariantException message))
    ∧ message = "Value in Range violates " +:+ dquote +:+ "low below high"
                +:+ dquote +:+ " invariant rule"
    ∧ contains "Range" message = true
    ∧ contains "low below high" message = true.
Proof.
  intros Hinv Hinit. eexists. split; [|split; [reflexivity|by vm_compute]].
  unfold __new__. cbn [object__new__ init Range __init__ ArgsSpec.__init__ signature].
  change (check_class_initialization _ _ _ _) with (Ok () : PyResult ()). cbv iota.
  set (self := assign_instance_arguments _ _ _ _ _).
  set (member := {| member_name := "low_below_high"; member_str := text;
                    member_call := low_below_high |}).
  assert (∃ rest, obtain_invariants (Range text) = member :: rest) as [rest Hrest].
  { unfold obtain_invariants. rewrite !getmembers_filter.
    cbn [members Range List.filter]. fold member.
    replace (is_param_invariant (init_member "Range")) with false by by vm_compute.
    replace (is_invariant (init_member "Range")) with false by by vm_compute.
    replace (is_invariant member) with true; cycle 1.
    { unfold is_invariant, is_invariant_method_with_name. simpl.
      by rewrite Hinv, Hinit. }
    destruct (is_param_invariant member); eauto. }
  unfold check_invariants. rewrite Hrest.
  rewrite run_invariants_first_false; [done|].
  by vm_compute.
Qed.

Lemma range_violates_low_below_high_witness :
  ∃ message,
    __new__ ∅ (Range invariant_text) [VInt 5; VInt 1] ∅
    = (["low_below_high"], Raise (ViolatedInvariantException message))
    ∧ message = "Value in Range violates " +:+ dquote +:+ "low below high"
                +:+ dquote +:+ " invariant rule"
    ∧ contains "Range" message = true
    ∧ contains "low below high" message = true.
Proof.
  apply (range_violates_low_below_high ∅ invariant_text); vm_compute; reflexivity.
Defined.

(** ** Equality *)

Section equality.

Variable value_eq : Value → Value → bool.

Lemma dict_eq_true (a b : gmap string Value) :
  dict_eq value_eq a b = true ↔ mappings_equal value_eq a b.
Proof.
  unfold dict_eq, mappings_equal.
  rewrite andb_true_iff, Nat.eqb_eq, forallb_forall. split.
  - intros [Hsize Hall] name.
    assert (∀ k va, a !! k = Some va →
              ∃ vb, b !! k = Some vb ∧ value_eq va vb = true) as Hab.
    { intros k va Hk. apply elem_of_map_to_list, list_elem_of_In in Hk.
      specialize (Hall _ Hk). simpl in Hall.
      destruct (b !! k) as [vb|]; [eauto|done]. }
    assert (dom a = dom b) as Hdom.
    { apply set_subseteq_size_eq.
      - intros k [va Hk]%elem_of_dom. apply elem_of_dom.
        destruct (Hab _ _ Hk) as (vb & -> & _). eauto.
      - rewrite !size_dom. lia. }
    destruct (a !! name) as [va|] eqn:Ha.
    + destruct (Hab _ _ Ha) as (vb & -> & Heq). done.
    + destruct (b !! name) as [vb|] eqn:Hb; [|done].
      assert (name ∈ dom a) as [va Hva]%elem_of_dom.
      { rewrite Hdom. apply elem_of_dom. eauto. }
      congruence.
  - intros Heq. split.
    + rewrite <-!(size_dom (D:=gset string)). f_equal. apply set_eq. intros k.
      rewrite !elem_of_dom. specialize (Heq k).
      destruct (a !! k), (b !! k); try done; split; intros [? ?]; eauto; done.
    + intros [k va] Hin%list_elem_of_In%elem_of_map_to_list. simpl.
      specialize (Heq k). rewrite Hin in Heq. by destruct (b !! k).
Qed.

End equality.

(** C6.  Two instances, of whatever concrete types, compare equal exactly
    when their field-name-to-value mappings are equal, and an instance
    never compares equal to [None]. *)
Theorem equality_is_mapping_equality value_eq (x y : Instance) :
  (__eq__ value_eq x (OfInstance y) = Ok true
   ↔ mappings_equal value_eq (__dict__ x) (__dict__ y))
  ∧ (∃ b, __eq__ value_eq x (OfInstance y) = Ok b)
  ∧ __eq__ value_eq x (OfValue VNone) = Ok false.
Proof.
  split; [|split; [by eexists|done]].
  simpl. rewrite <-dict_eq_true. split; [by intros [= ->]|by intros ->].
Qed.

Lemma equality_is_mapping_equality_witness :
  __new__ ∅ Point [VInt 1; VInt 2] ∅ = ([], Ok point_1_2)
  ∧ __new__ ∅ Pixel [VInt 1; VInt 2] ∅ = ([], Ok pixel_1_2)
  ∧ mappings_equal scalar_eq (__dict__ point_1_2) (__dict__ pixel_1_2)
  ∧ __eq__ scalar_eq point_1_2 (OfInstance pixel_1_2) = Ok true
  ∧ __eq__ scalar_eq point_1_2 (OfValue VNone) = Ok false.
Proof.
  split; [vm_compute; reflexivity|].
  split; [vm_compute; reflexivity|].
  destruct (equality_is_mapping_equality scalar_eq point_1_2 pixel_1_2)
    as (Hiff & _ & Hnone).
  assert (__eq__ scalar_eq point_1_2 (OfInstance pixel_1_2) = Ok true) as Heq.
  { vm_compute. reflexivity. }
  split; [apply Hiff, Heq|]. split; [exact Heq|exact Hnone].
Defined.

(** C10.  Comparing an instance with [None] by [!=] raises
    [AttributeError], where [==] on the same operands returns [False]:
    the inequality is not the negation of the equality. *)
Theorem inequality_with_None_raises value_eq (x : Instance) :
  __ne__ value_eq x (OfValue VNone) = Raise AttributeError
  ∧ __eq__ value_eq x (OfValue VNone) = Ok false
  ∧ __ne__ value_eq x (OfValue VNone)
    ≠ (b ← __eq__ value_eq x (OfValue VNone); Ok (negb b)).
Proof. done. Qed.

(** ** Representation and hash *)


Lemma mapM_total {A B} (f : A → PyResult B) (g : A → B) (l : list A) :
  (∀ a, a ∈ l → f a = Ok (g a)) → mapM f l = Ok (g <$> l).
Proof.
  induction l as [|a l IH]; intros Hfg; [done|]. simpl.
  rewrite (Hfg a) by left. simpl. rewrite IH; [done|].
  intros a' Ha'. apply Hfg. by right.
Qed.





(** ** Container arguments *)

(** The seven names that the class body of [ImmutableDict] assigns raise
    on every call; the two other mutating methods are left to [dict]. *)
Lemma ImmutableDict_bound_methods m :
  match ImmutableDict.method m with
  | Some bound =>
      ∀ entries args (kwargs : gmap string Value),
        bound entries args kwargs = Raise CannotBeChangeException
  | None => m = dict_ior ∨ m = dict_init
  end.
Proof. destruct m; simpl; auto. Qed.

Lemma tuple_rejects m items args :
  tuple_method m items args = Raise TypeError
  ∨ tuple_method m items args = Raise AttributeError.
Proof. destruct m; simpl; auto. Qed.

(** A mapping is sanitized into an [ImmutableDict] with its entries, a
    list or a set into a tuple with its elements. *)
Lemma sanitize_arg_container h value :
  (∀ entries, isinstance_dict h value = Some entries →
     sanitize_arg h value = VImmutableDict entries)
  ∧ (∀ items, isinstance_list_or_set h value = Some items →
     sanitize_arg h value = VTuple items).
Proof.
  unfold sanitize_arg. split.
  - by intros entries ->.
  - intros items Hl.
    destruct (isinstance_dict h value) as [entries|] eqn:Hd.
    { apply isinstance_exclusive in Hd. congruence. }
    by rewrite Hl.
Qed.




(** C7.  [Basket(items, prices=prices)] binds [prices] to an
    [ImmutableDict] with the entries of the argument and [items] to a
    tuple with the elements of the argument.  On that [ImmutableDict],
    [update] raises [CannotBeChangeException], but [__init__] and the
    in-place union are not bound by the class body: [__init__] called
    again is the method of [dict] and stores a new entry in place. *)
Theorem ImmutableDict_reinitialised_in_place :
  __new__ flat_store Basket [VRef 1] (<["prices" := VRef 0]> ∅) = ([], Ok basket)
  ∧ __dict__ basket !! "prices" = Some (VImmutableDict [(VStr "tea", VInt 3)])
  ∧ __dict__ basket !! "items" = Some (VTuple [VInt 1; VInt 2; VInt 3])
  ∧ ImmutableDict.update_keyword [(VStr "tea", VInt 3)] "milk" (VInt 2)
    = Raise CannotBeChangeException
  ∧ ImmutableDict.method dict_init = None
  ∧ ImmutableDict.method dict_ior = None
  ∧ ImmutableDict.init_keyword [(VStr "tea", VInt 3)] "milk" (VInt 2)
    = Ok [(VStr "tea", VInt 3); (VStr "milk", VInt 2)].
Proof.
  split; [vm_compute; reflexivity|].
  split; [vm_compute; reflexivity|].
  split; [vm_compute; reflexivity|].
  repeat split.
Qed.

(** ** Aliases of nested containers *)




(** A default value is bound as declared: a list given as default stays
    the shared, mutable list. *)
Lemma default_container_is_not_sanitized :
  ∃ tags,
    __new__ (<[0%nat := OList []]> ∅) Tags [VStr "a"] ∅ = ([], Ok tags)
    ∧ __dict__ tags !! "tags" = Some (VRef 0)
    ∧ immutable_container (VRef 0) = false.
Proof.
  eexists. split; [vm_compute; reflexivity|]. split; [vm_compute|]; reflexivity.
Qed.

(** ** Failures of construction *)

Lemma new_checked h cls args_spec args (kwargs : gmap string Value) :
  __init__ cls = ArgsSpec.Function args_spec →
  check_class_initialization (object__new__ cls) args_spec args kwargs = Ok () →
  __new__ h cls args kwargs
  = let self := bound_instance h cls args_spec args kwargs in
    let '(called, r) := check_invariants cls self in (called, _ ← r; Ok self).
Proof.
  intros Hinit Hcheck. unfold __new__.
  change (init (object__new__ cls)) with (__init__ cls).
  rewrite Hinit. cbn [ArgsSpec.__init__]. by rewrite Hcheck.
Qed.

Lemma new_unchecked h cls args_spec args (kwargs : gmap string Value) e :
  __init__ cls = ArgsSpec.Function args_spec →
  check_class_initialization (object__new__ cls) args_spec args kwargs = Raise e →
  (__new__ h cls args kwargs).2 = Raise e.
Proof.
  intros Hinit Hcheck. unfold __new__.
  change (init (object__new__ cls)) with (__init__ cls).
  rewrite Hinit. cbn [ArgsSpec.__init__]. by rewrite Hcheck.
Qed.

Lemma run_invariants_passing self passing rest :
  Forall (λ invariant, member_call invariant self self = Ok (VBool true)) passing →
  run_invariants self (passing ++ rest)
  = let '(called, r) := run_invariants self rest in
    ((member_name <$> passing) ++ called, r).
Proof.
  induction 1 as [|invariant passing Hcall _ IH]; simpl.
  { by destruct (run_invariants self rest). }
  unfold invariant_execute. rewrite Hcall. simpl. rewrite IH.
  by destruct (run_invariants self rest).
Qed.

Lemma existsb_is_None (values : list Value) :
  VNone ∈ values → existsb is_None values = true.
Proof.
  intros Hin. apply existsb_exists. exists VNone. split; [|done].
  by apply list_elem_of_In.
Qed.

Lemma existsb_is_None_false (values : list Value) :
  existsb is_None values = false → VNone ∉ values.
Proof.
  intros Hex Hin. apply existsb_is_None in Hin. congruence.
Qed.

Lemma check_class_initialization_Ok self args_spec args (kwargs : gmap string Value) :
  check_class_initialization self args_spec args kwargs = Ok () →
  (1 < length (ArgsSpec.args args_spec))%nat
  ∧ (VNone ∉ args)
  ∧ ∀ name, kwargs !! name ≠ Some VNone.
Proof.
  unfold check_class_initialization, MIN_NUMBER_ARGS.
  destruct (length (ArgsSpec.args args_spec) <=? 1)%nat eqn:Hlen; [done|].
  destruct (existsb is_None args) eqn:Hargs; [done|].
  destruct (existsb is_None (map_to_list kwargs).*2) eqn:Hkwargs; [done|].
  intros _. split; [by apply Nat.leb_gt|]. split; [by apply existsb_is_None_false|].
  intros name Hname. apply existsb_is_None_false in Hkwargs. apply Hkwargs.
  apply list_elem_of_fmap. exists (name, VNone). split; [done|].
  by apply elem_of_map_to_list.
Qed.

Lemma check_class_initialization_Raise self args_spec args
    (kwargs : gmap string Value) e :
  check_class_initialization self args_spec args kwargs = Raise e →
  ((length (ArgsSpec.args args_spec) ≤ 1)%nat ∧ e = NotDeclaredArgsException)
  ∨ ((1 < length (ArgsSpec.args args_spec))%nat
     ∧ (VNone ∈ args ∨ ∃ name, kwargs !! name = Some VNone)
     ∧ e = ArgWithoutValueException ("Missing value for " +:+ type_name self)).
Proof.
  unfold check_class_initialization, MIN_NUMBER_ARGS.
  destruct (length (ArgsSpec.args args_spec) <=? 1)%nat eqn:Hlen.
  { intros [= <-]. left. split; [by apply Nat.leb_le|done]. }
  apply Nat.leb_gt in Hlen.
  destruct (existsb is_None args) eqn:Hargs.
  { intros [= <-]. right. split; [done|]. split; [|done]. left.
    apply existsb_exists in Hargs as ([] & Hin%list_elem_of_In & ?); done. }
  destruct (existsb is_None (map_to_list kwargs).*2) eqn:Hkwargs; [|done].
  intros [= <-]. right. split; [done|]. split; [|done]. right.
  apply existsb_exists in Hkwargs as ([] & Hin%list_elem_of_In & ?); try done.
  apply list_elem_of_fmap in Hin as ([name value] & ? & Hin); simplify_eq/=.
  exists name. by apply elem_of_map_to_list.
Qed.

Lemma check_class_initialization_validated self args_spec args
    (kwargs : gmap string Value) :
  validated args_spec args kwargs →
  check_class_initialization self args_spec args kwargs = Ok ().
Proof.
  intros (Hlen & Hargs & Hkwargs).
  destruct (check_class_initialization self args_spec args kwargs) as [[]|e] eqn:Hcheck;
    [done|].
  apply check_class_initialization_Raise in Hcheck
    as [[Hle _]|(_ & [Hin|[name Hname]] & _)]; [lia|done|].
  by destruct (Hkwargs name).
Qed.

Lemma run_invariants_Raise self invariants e :
  (run_invariants self invariants).2 = Raise e →
  ∃ passing invariant rest,
    invariants = passing ++ invariant :: rest
    ∧ Forall (λ earlier, member_call earlier self self = Ok (VBool true)) passing
    ∧ invariant_fails self invariant e.
Proof.
  induction invariants as [|invariant rest IH]; simpl; [done|].
  unfold invariant_execute.
  destruct (member_call invariant self self) as [value|e'] eqn:Hcall; simpl.
  - destruct value as [|[]| | | | |]; simpl;
      try (intros [= <-]; exists [], invariant, rest; split; [done|];
           split; [constructor|]; right; right; eexists; by eauto).
    + destruct (run_invariants self rest) as [called r]; simpl in *.
      intros (passing & failing & rest' & -> & Hpass & Hfail)%IH.
      exists (invariant :: passing), failing, rest'.
      split; [done|]. split; [by constructor|done].
    + intros [= <-]. exists [], invariant, rest. split; [done|].
      split; [constructor|]. right. by left.
  - intros [= <-]. exists [], invariant, rest. split; [done|].
    split; [constructor|]. by left.
Qed.

Lemma run_invariants_fails self passing invariant rest e :
  Forall (λ earlier, member_call earlier self self = Ok (VBool true)) passing →
  invariant_fails self invariant e →
  (run_invariants self (passing ++ invariant :: rest)).2 = Raise e.
Proof.
  intros Hpass Hfail. rewrite (run_invariants_passing _ _ _ Hpass).
  simpl. unfold invariant_execute.
  destruct Hfail as [->|[[-> ->]|(value & -> & Hvalue & ->)]]; simpl; [done..|].
  destruct value; try done. by destruct (Hvalue b).
Qed.

(** C9, as amended.  [__new__] raises in exactly these cases: with
    [NotDeclaredArgsException], without arguments, when the signature of
    the constructor cannot be introspected and also when it declares no
    field beyond the receiver; with [ArgWithoutValueException] and the
    message [Missing value for] followed by the type name when a
    positional or named argument is [None]; and, the arguments being
    valid, at the first invariant in discovery order that fails, with
    [ViolatedInvariantException] if it returned [False], with
    [InvariantReturnValueException] if it returned a non-boolean, and
    with the invariant's own exception if it raised one. *)
Theorem construction_failure_kinds h cls args (kwargs : gmap string Value) e :
  (__new__ h cls args kwargs).2 = Raise e
  ↔ (__init__ cls = ArgsSpec.BuiltIn ∧ e = NotDeclaredArgsException)
    ∨ ∃ args_spec,
        __init__ cls = ArgsSpec.Function args_spec
        ∧ (((length (ArgsSpec.args args_spec) ≤ 1)%nat ∧ e = NotDeclaredArgsException)
           ∨ ((1 < length (ArgsSpec.args args_spec))%nat
              ∧ (VNone ∈ args ∨ ∃ name, kwargs !! name = Some VNone)
              ∧ e = ArgWithoutValueException ("Missing value for " +:+ __name__ cls))
           ∨ (validated args_spec args kwargs
              ∧ ∃ passing invariant rest,
                  obtain_invariants cls = passing ++ invariant :: rest
                  ∧ Forall (λ earlier,
                              member_call earlier
                                (bound_instance h cls args_spec args kwargs)
                                (bound_instance h cls args_spec args kwargs)
                              = Ok (VBool true)) passing
                  ∧ invariant_fails (bound_instance h cls args_spec args kwargs)
                      invariant e)).
Proof.
  destruct (__init__ cls) as [args_spec|] eqn:Hinit; cycle 1.
  { unfold __new__. change (init (object__new__ cls)) with (__init__ cls).
    rewrite Hinit. simpl. split.
    - intros [= <-]. by left.
    - intros [[_ ->]|(args_spec & [=] & _)]. done. }
  destruct (check_class_initialization (object__new__ cls) args_spec args kwargs)
    as [[]|e'] eqn:Hcheck.
  - pose proof (check_class_initialization_Ok _ _ _ _ Hcheck) as Hvalid.
    rewrite (new_checked _ _ _ _ _ Hinit Hcheck). cbv zeta. unfold check_invariants.
    split.
    + intros Hraise. right. exists args_spec. split; [done|]. right. right.
      split; [done|]. apply run_invariants_Raise.
      destruct (run_invariants _ _) as [called [[]|e'']]; simpl in *; [done|].
      by injection Hraise as <-.
    + intros [[[=] _]|(args_spec' & [= <-] & Hcases)].
      destruct Hvalid as (Hlen & Hargs & Hkwargs).
      destruct Hcases as [[Hle _]|[(_ & [Hin|[name Hname]] & _)
                         |(_ & passing & invariant & rest & Hinv & Hpass & Hfail)]].
      * lia.
      * done.
      * by destruct (Hkwargs name).
      * rewrite Hinv.
        pose proof (run_invariants_fails _ _ _ rest _ Hpass Hfail) as Hrun.
        destruct (run_invariants _ _) as [called r]; simpl in *. by rewrite Hrun.
  - rewrite (new_unchecked _ _ _ _ _ _ Hinit Hcheck).
    apply check_class_initialization_Raise in Hcheck as Hcases. simpl in Hcases.
    split.
    + intros [= <-]. right. exists args_spec. split; [done|].
      destruct Hcases as [?|?]; [by left|right; by left].
    + intros [[[=] _]|(args_spec' & [= <-] & Hcases')]. f_equal.
      destruct Hcases as [[Hle ->]|(Hlen & Hnone & ->)];
        destruct Hcases' as [[Hle' ->]|[(Hlen' & _ & ->)
                           |((Hlen' & Hargs & Hkwargs) & _)]];
        try done; try lia.
      destruct Hnone as [Hin|[name Hname]]; [done|by destruct (Hkwargs name)].
Qed.

Lemma construction_failure_kinds_witness :
  (__new__ ∅ Opaque [] ∅).2 = Raise NotDeclaredArgsException
  ∧ (__new__ ∅ Empty [] ∅).2 = Raise NotDeclaredArgsException
  ∧ (__new__ ∅ Point [VNone; VInt 2] ∅).2
    = Raise (ArgWithoutValueException "Missing value for Point")
  ∧ (__new__ ∅ Money [VInt (-5)] ∅).2
    = Raise (ViolatedInvariantException
               ("Value in Money violates " +:+ dquote +:+ "amount not negative"
                +:+ dquote +:+ " invariant rule")).
Proof.
  split; [|split; [|split]].
  - apply construction_failure_kinds. by left.
  - apply construction_failure_kinds. right. exists (plain ["self"]).
    split; [reflexivity|]. left. split; [simpl; lia|reflexivity].
  - apply construction_failure_kinds. right. exists (plain ["self"; "x"; "y"]).
    split; [reflexivity|]. right. left. split; [simpl; lia|].
    split; [left; by left|reflexivity].
  - apply construction_failure_kinds. right. exists (plain ["self"; "amount"]).
    split; [reflexivity|]. right. right. split.
    { split; [simpl; lia|]. split.
      - apply existsb_is_None_false. reflexivity.
      - intros name. by rewrite lookup_empty. }
    exists (getmembers Money is_param_invariant),
           {| member_name := "amount_not_negative"; member_str := invariant_text;
              member_call := amount_not_negative |},
           (getmembers Money is_param_invariant).
    split; [unfold obtain_invariants; rewrite !getmembers_filter; vm_compute; reflexivity|].
    split; [rewrite getmembers_filter; vm_compute; repeat constructor|].
    right. left. split; vm_compute; reflexivity.
Defined.

(** C9, as stated, fails: [Opaque], whose constructor cannot be
    introspected, and [Empty], whose constructor declares only the
    receiver, fail with one and the same error. *)
Lemma unreadable_signature_and_no_fields_fail_alike :
  __init__ Opaque = ArgsSpec.BuiltIn
  ∧ __init__ Empty = ArgsSpec.Function (plain ["self"])
  ∧ __new__ ∅ Opaque [] ∅ = ([], Raise NotDeclaredArgsException)
  ∧ __new__ ∅ Empty [] ∅ = ([], Raise NotDeclaredArgsException)
  ∧ __new__ ∅ Opaque [] ∅ = __new__ ∅ Empty [] ∅.
Proof. repeat split. Qed.

(** A subtype that defines no [__init__] has a readable signature with
    the receiver as its only named parameter, and fails in validation. *)
Lemma subtype_without_init_declares_no_field :
  ArgsSpec.__init__ (__init__ Bare)
  = Ok {| ArgsSpec.args := ["self"]; ArgsSpec.varargs := Some "args";
          ArgsSpec.keywords := Some "kwargs"; ArgsSpec.defaults := None |}
  ∧ __new__ ∅ Bare [VInt 1] ∅ = ([], Raise NotDeclaredArgsException).
Proof. split; reflexivity. Qed.

(** * Further properties of the module *)

(** ** Validation *)

(** X1.  A construction call that returns an instance was made on a type
    whose constructor has a readable signature with at least one
    parameter after the receiver, with no [None] among the positional
    arguments and no [None] as the value of a named argument. *)
Theorem constructed_implies_validated h cls args (kwargs : gmap string Value) called self :
  __new__ h cls args kwargs = (called, Ok self) →
  ∃ args_spec,
    __init__ cls = ArgsSpec.Function args_spec
    ∧ (1 < length (ArgsSpec.args args_spec))%nat
    ∧ (VNone ∉ args)
    ∧ ∀ name, kwargs !! name ≠ Some VNone.
Proof.
  intros (args_spec & Hinit & Hcheck & _)%new_Ok.
  exists args_spec. split; [done|]. by eapply check_class_initialization_Ok.
Qed.

Lemma constructed_implies_validated_witness :
  ∃ args_spec,
    __init__ Point = ArgsSpec.Function args_spec
    ∧ (1 < length (ArgsSpec.args args_spec))%nat
    ∧ (VNone ∉ [VInt 1; VInt 2])
    ∧ ∀ name : string, (∅ : gmap string Value) !! name ≠ Some VNone.
Proof.
  apply (constructed_implies_validated ∅ Point [VInt 1; VInt 2] ∅ [] point_1_2).
  vm_compute. reflexivity.
Defined.

(** X2.  When validation fails -- the signature cannot be read, the
    constructor declares no field, or an argument is [None] -- no
    invariant is called. *)
Theorem no_invariant_called_before_validation h cls args (kwargs : gmap string Value) :
  (__init__ cls = ArgsSpec.BuiltIn
   ∨ (∃ args_spec, __init__ cls = ArgsSpec.Function args_spec
                   ∧ (length (ArgsSpec.args args_spec) ≤ 1)%nat)
   ∨ VNone ∈ args
   ∨ (∃ name, kwargs !! name = Some VNone)) →
  (__new__ h cls args kwargs).1 = []
  ∧ ∃ e, (__new__ h cls args kwargs).2 = Raise e.
Proof.
  intros Hfail. unfold __new__.
  change (init (object__new__ cls)) with (__init__ cls).
  destruct (__init__ cls) as [args_spec|] eqn:Hinit; cbn [ArgsSpec.__init__];
    [|by eauto].
  destruct (check_class_initialization _ _ _ _) as [[]|e] eqn:Hcheck; [|by eauto].
  apply check_class_initialization_Ok in Hcheck as (Hlen & Hargs & Hkwargs).
  destruct Hfail as [?|[(args_spec' & [= <-] & Hle)|[Hin|[name Hname]]]].
  - done.
  - lia.
  - done.
  - by destruct (Hkwargs name).
Qed.

Lemma no_invariant_called_before_validation_witness :
  (__new__ ∅ Money [VNone] ∅).1 = []
  ∧ ∃ e, (__new__ ∅ Money [VNone] ∅).2 = Raise e.
Proof.
  apply no_invariant_called_before_validation.
  right. right. left. by left.
Defined.

(** ** The invariant loop *)

Lemma invariant_execute_true self invariant :
  invariant_execute self (member_call invariant) = Ok true
  ↔ member_call invariant self self = Ok (VBool true).
Proof.
  unfold invariant_execute.
  destruct (member_call invariant self self) as [[| [] | | | | |]|]; simpl;
    split; intros; simplify_eq; done.
Qed.

Lemma run_invariants_prefix self invariants :
  (run_invariants self invariants).1 `prefix_of` member_name <$> invariants.
Proof.
  induction invariants as [|invariant rest IH]; simpl; [done|].
  destruct (invariant_execute self (member_call invariant)) as [[]|].
  - destruct (run_invariants self rest) as [called r]. simpl in *.
    by apply prefix_cons.
  - apply prefix_cons, prefix_nil.
  - apply prefix_cons, prefix_nil.
Qed.

Lemma run_invariants_Ok_iff self invariants :
  (run_invariants self invariants).2 = Ok ()
  ↔ Forall (λ invariant, member_call invariant self self = Ok (VBool true)) invariants.
Proof.
  induction invariants as [|invariant rest IH]; simpl; [by split|].
  rewrite Forall_cons, <-IH, <-invariant_execute_true.
  destruct (invariant_execute self (member_call invariant)) as [[]|]; simpl.
  - destruct (run_invariants self rest) as [called r]. simpl.
    split; [by intros ->|by intros [_ ->]].
  - split; [done|by intros [? _]].
  - split; [done|by intros [? _]].
Qed.

(** X3.  On every construction call, whatever its outcome, the invariant
    calls made are an initial part of the discovery order: the members
    that the parameter-invariant test accepts, then the members that the
    general-invariant test accepts, each group in member order. *)
Theorem calls_follow_discovery_order h cls args (kwargs : gmap string Value) :
  (__new__ h cls args kwargs).1
  `prefix_of` (member_name <$> getmembers cls is_param_invariant)
              ++ (member_name <$> getmembers cls is_invariant).
Proof.
  rewrite <-fmap_app. unfold __new__.
  destruct (ArgsSpec.__init__ _) as [args_spec|]; [|apply prefix_nil].
  destruct (check_class_initialization _ _ _ _); [|apply prefix_nil].
  unfold check_invariants.
  pose proof (run_invariants_prefix
                (assign_instance_arguments h (object__new__ cls) args_spec args
                   (replace_mutable_kwargs_with_immutable_types h kwargs))
                (obtain_invariants cls)) as Hprefix.
  destruct (run_invariants _ _) as [called r]. exact Hprefix.
Qed.

(** X4.  Once validation has passed, [__new__] returns an instance
    exactly when every discovered invariant returns [True] on the bound
    instance, and the instance it returns is the bound one. *)
Theorem constructed_iff_invariants_hold h cls args_spec args
    (kwargs : gmap string Value) self :
  __init__ cls = ArgsSpec.Function args_spec →
  check_class_initialization (object__new__ cls) args_spec args kwargs = Ok () →
  (__new__ h cls args kwargs).2 = Ok self
  ↔ self = bound_instance h cls args_spec args kwargs
    ∧ Forall (λ invariant, member_call invariant self self = Ok (VBool true))
             (obtain_invariants cls).
Proof.
  intros Hinit Hcheck. rewrite (new_checked _ _ _ _ _ Hinit Hcheck).
  cbv zeta. unfold check_invariants.
  pose proof (run_invariants_Ok_iff (bound_instance h cls args_spec args kwargs)
                (obtain_invariants cls)) as Hiff.
  destruct (run_invariants _ _) as [called [[]|e]]; simpl in *.
  - split.
    + intros [= <-]. split; [done|]. by apply Hiff.
    + by intros [-> _].
  - split; [done|]. intros [-> Hall]. by apply Hiff in Hall.
Qed.

Lemma constructed_iff_invariants_hold_witness :
  (__new__ ∅ Money [VInt 5] ∅).2
  = Ok (bound_instance ∅ Money (plain ["self"; "amount"]) [VInt 5] ∅)
  ∧ (__new__ ∅ Money [VInt (-5)] ∅).2
    ≠ Ok (bound_instance ∅ Money (plain ["self"; "amount"]) [VInt (-5)] ∅).
Proof.
  split.
  - apply (constructed_iff_invariants_hold ∅ Money (plain ["self"; "amount"])
             [VInt 5] ∅); [reflexivity|vm_compute; reflexivity|].
    split; [reflexivity|].
    unfold obtain_invariants. rewrite !getmembers_filter.
    repeat constructor.
  - intros Hok.
    apply (constructed_iff_invariants_hold ∅ Money (plain ["self"; "amount"])
             [VInt (-5)] ∅) in Hok as [_ Hall]; [|reflexivity|vm_compute; reflexivity].
    unfold obtain_invariants in Hall. rewrite !getmembers_filter in Hall.
    apply Forall_app in Hall as [_ Hall]. apply Forall_cons in Hall as [Hneg _].
    vm_compute in Hneg. discriminate.
Defined.

(** X5.  The loop stops at the first invariant that does not return
    [True]: the invariants before it have been called, it has been
    called, and none after it is; if it raised an exception, the
    construction call raises that exception. *)
Theorem first_failing_invariant_stops_the_loop h cls args_spec args
    (kwargs : gmap string Value) passing invariant rest :
  __init__ cls = ArgsSpec.Function args_spec →
  check_class_initialization (object__new__ cls) args_spec args kwargs = Ok () →
  let self := bound_instance h cls args_spec args kwargs in
  obtain_invariants cls = passing ++ invariant :: rest →
  Forall (λ earlier, member_call earlier self self = Ok (VBool true)) passing →
  member_call invariant self self ≠ Ok (VBool true) →
  (__new__ h cls args kwargs).1 = (member_name <$> passing) ++ [member_name invariant]
  ∧ (∃ e, (__new__ h cls args kwargs).2 = Raise e)
  ∧ (∀ e, member_call invariant self self = Raise e →
          (__new__ h cls args kwargs).2 = Raise e).
Proof.
  intros Hinit Hcheck self Hinv Hpass Hfail.
  rewrite (new_checked _ _ _ _ _ Hinit Hcheck). fold self.
  unfold check_invariants. rewrite Hinv, (run_invariants_passing _ _ _ Hpass).
  simpl. rewrite <-invariant_execute_true in Hfail. unfold invariant_execute in *.
  destruct (member_call invariant self self) as [value|e]; simpl in *.
  - destruct value as [|[]| | | | |]; simpl; try done;
      (split; [done|]; split; [by eauto|done]).
  - split; [done|]. split; [by eauto|]. by intros e' [= ->].
Qed.

Lemma first_failing_invariant_stops_the_loop_witness :
  (__new__ ∅ Money [VStr "five"] ∅).1 = ["check_amount_is_int"]
  ∧ (∃ e, (__new__ ∅ Money [VStr "five"] ∅).2 = Raise e).
Proof.
  destruct (first_failing_invariant_stops_the_loop ∅ Money (plain ["self"; "amount"])
              [VStr "five"] ∅ []
              {| member_name := "check_amount_is_int"; member_str := param_invariant_text;
                 member_call := amount_is_int |}
              (getmembers Money is_invariant))
    as (Hcalls & Hraise & _).
  - reflexivity.
  - vm_compute. reflexivity.
  - unfold obtain_invariants. rewrite !getmembers_filter. vm_compute. reflexivity.
  - constructor.
  - vm_compute. discriminate.
  - split; [exact Hcalls|exact Hraise].
Defined.

(** X6.  When a construction call returns an instance, the calls made are
    those of all members accepted by the parameter-invariant test
    followed by those of all members accepted by the general-invariant
    test, and every member of the first list is a member of the second:
    each parameter invariant has been called in both passes. *)
Theorem parameter_invariants_called_in_both_passes h cls args
    (kwargs : gmap string Value) called self :
  __new__ h cls args kwargs = (called, Ok self) →
  called = (member_name <$> getmembers cls is_param_invariant)
           ++ (member_name <$> getmembers cls is_invariant)
  ∧ ∀ invariant, invariant ∈ getmembers cls is_param_invariant →
                 invariant ∈ getmembers cls is_invariant.
Proof.
  intros (args_spec & _ & _ & _ & Hinv)%new_Ok. split.
  - rewrite <-fmap_app. by apply run_invariants_Ok in Hinv.
  - apply param_invariants_among_invariants.
Qed.

Lemma parameter_invariants_called_in_both_passes_witness :
  ∃ money,
    __new__ ∅ Money [VInt 5] ∅
    = ((member_name <$> getmembers Money is_param_invariant)
       ++ (member_name <$> getmembers Money is_invariant), Ok money).
Proof.
  destruct (__new__ ∅ Money [VInt 5] ∅) as [called [money|e]] eqn:Hnew;
    [|vm_compute in Hnew; discriminate].
  exists money.
  by destruct (parameter_invariants_called_in_both_passes _ _ _ _ _ _ Hnew) as [<- _].
Defined.

(** ** The bound fields *)

Lemma dict_zip_lookup_None {V} (ks : list string) (vs : list V) k :
  k ∉ ks → dict (zip ks vs) !! k = None.
Proof.
  intros Hk. rewrite dict_list_to_map. apply not_elem_of_list_to_map_1.
  rewrite fmap_reverse, elem_of_reverse, list_elem_of_fmap.
  intros [[k' v] [-> Hin]]. by apply elem_of_zip_l in Hin.
Qed.

Lemma assign_instance_arguments_lookup_undeclared h cls args_spec args
    (kwargs : gmap string Value) name :
  name ∉ drop 1 (ArgsSpec.args args_spec) →
  __dict__ (assign_instance_arguments h (object__new__ cls) args_spec args kwargs) !! name
  = kwargs !! name.
Proof.
  intros Hname. simpl. unfold update. rewrite dict_app, dict_items. unfold update.
  rewrite !lookup_union, lookup_empty.
  rewrite !dict_zip_lookup_None; [|by rewrite elem_of_reverse|done].
  by destruct (kwargs !! name).
Qed.

Lemma sanitize_arg_None h value : sanitize_arg h value = VNone → value = VNone.
Proof.
  unfold sanitize_arg. destruct value as [| | | | | |l]; simpl; try done.
  by destruct (h !! l) as [[]|].
Qed.

Lemma declared_default_Some args_spec j value :
  declared_default args_spec j = Some value →
  (j < length (ArgsSpec.args args_spec)
   ∧ length (ArgsSpec.args args_spec)
     ≤ j + length (default [] (ArgsSpec.defaults args_spec)))%nat.
Proof. unfold declared_default. by case_decide. Qed.

(** X7.  The names bound in the instance that a construction call returns
    are exactly: the names of the named arguments, declared or not; the
    declared fields that have a positional argument; and the declared
    fields that have a default. *)
Theorem bound_names h cls args_spec args (kwargs : gmap string Value) called self name :
  __init__ cls = ArgsSpec.Function args_spec →
  NoDup (ArgsSpec.args args_spec) →
  __new__ h cls args kwargs = (called, Ok self) →
  is_Some (__dict__ self !! name)
  ↔ is_Some (kwargs !! name)
    ∨ ∃ i, drop 1 (ArgsSpec.args args_spec) !! i = Some name
           ∧ ((i < length args)%nat ∨ is_Some (declared_default args_spec (S i))).
Proof.
  intros Hinit Hnd Hnew.
  apply new_Ok in Hnew as (args_spec' & Hinit' & _ & -> & _).
  rewrite Hinit in Hinit'. injection Hinit' as <-.
  assert (∀ i, drop 1 (ArgsSpec.args args_spec) !! i = Some name →
            is_Some (__dict__ (assign_instance_arguments h (object__new__ cls) args_spec
                                 args (replace_mutable_kwargs_with_immutable_types h kwargs))
                     !! name)
            ↔ is_Some (kwargs !! name) ∨ (i < length args)%nat
              ∨ is_Some (declared_default args_spec (S i))) as Hdeclared.
  { intros i Hi. rewrite (assign_instance_arguments_lookup _ _ _ _ _ i) by done.
    rewrite replace_mutable_kwargs_lookup.
    destruct (kwargs !! name) as [value|]; simpl.
    { split; eauto. }
    destruct (args !! i) as [value|] eqn:Ha.
    - apply lookup_lt_Some in Ha. split; eauto.
    - apply lookup_ge_None in Ha. split; [by eauto|].
      intros [[? [=]]|[?|?]]; [lia|done]. }
  destruct (decide (name ∈ drop 1 (ArgsSpec.args args_spec))) as [Hin|Hout].
  - apply list_elem_of_lookup in Hin as [i Hi]. rewrite (Hdeclared i Hi). split.
    + intros [?|?]; eauto.
    + intros [?|(i' & Hi' & ?)]; [by eauto|].
      assert (i' = i) as -> by (eapply NoDup_lookup; [|exact Hi'|exact Hi];
        eapply sublist_NoDup; [exact Hnd|apply sublist_drop]).
      eauto.
  - rewrite assign_instance_arguments_lookup_undeclared by done.
    rewrite replace_mutable_kwargs_lookup, fmap_is_Some. split; [by eauto|].
    intros [?|(i & Hi & _)]; [done|].
    destruct Hout. by eapply list_elem_of_lookup_2.
Qed.

Lemma bound_names_witness :
  ∃ called self,
    __new__ ∅ Span [VInt 7] (<["zone" := VStr "utc"]> ∅) = (called, Ok self)
    ∧ is_Some (__dict__ self !! "zone")
    ∧ is_Some (__dict__ self !! "start")
    ∧ is_Some (__dict__ self !! "unit")
    ∧ ¬ is_Some (__dict__ self !! "stop").
Proof.
  destruct (__new__ ∅ Span [VInt 7] (<["zone" := VStr "utc"]> ∅))
    as [called [self|e]] eqn:Hnew; [|vm_compute in Hnew; discriminate].
  exists called, self. split; [reflexivity|].
  assert (NoDup (ArgsSpec.args span_signature)) as Hnd.
  { apply (bool_decide_unpack _). vm_compute. reflexivity. }
  pose proof (λ name, bound_names ∅ Span span_signature [VInt 7]
                        (<["zone" := VStr "utc"]> ∅) called self name
                        eq_refl Hnd Hnew) as Hnames.
  split; [apply Hnames; left; vm_compute; eauto|].
  split; [apply Hnames; right; exists 0%nat; split; [reflexivity|left; simpl; lia]|].
  split; [apply Hnames; right; exists 2%nat; split; [reflexivity|right; vm_compute; eauto]|].
  rewrite Hnames. intros [[value Hv]|(i & Hi & _)].
  - vm_compute in Hv. discriminate.
  - destruct i as [|[|[|i]]]; vm_compute in Hi; discriminate.
Defined.

(** X8.  In the instance that a construction call returns, a field holds
    [None] only as the declared default of a parameter that received
    neither a named nor a positional argument. *)
Theorem None_only_from_default h cls args_spec args (kwargs : gmap string Value)
    called self name :
  __init__ cls = ArgsSpec.Function args_spec →
  NoDup (ArgsSpec.args args_spec) →
  __new__ h cls args kwargs = (called, Ok self) →
  __dict__ self !! name = Some VNone →
  kwargs !! name = None
  ∧ ∃ i, drop 1 (ArgsSpec.args args_spec) !! i = Some name
         ∧ args !! i = None
         ∧ declared_default args_spec (S i) = Some VNone.
Proof.
  intros Hinit Hnd Hnew.
  apply new_Ok in Hnew as (args_spec' & Hinit' & Hcheck & -> & _).
  rewrite Hinit in Hinit'. injection Hinit' as <-.
  apply check_class_initialization_Ok in Hcheck as (_ & Hargs & Hkwargs).
  destruct (decide (name ∈ drop 1 (ArgsSpec.args args_spec))) as [Hin|Hout].
  - apply list_elem_of_lookup in Hin as [i Hi].
    rewrite (assign_instance_arguments_lookup _ _ _ _ _ i) by done.
    rewrite replace_mutable_kwargs_lookup.
    destruct (kwargs !! name) as [value|] eqn:Hk; simpl.
    { intros [= ->%sanitize_arg_None]. by destruct (Hkwargs name). }
    destruct (args !! i) as [value|] eqn:Ha.
    { intros [= ->%sanitize_arg_None]. destruct Hargs.
      by eapply list_elem_of_lookup_2. }
    eauto.
  - rewrite assign_instance_arguments_lookup_undeclared by done.
    rewrite replace_mutable_kwargs_lookup.
    destruct (kwargs !! name) as [value|] eqn:Hk; simpl; [|done].
    intros [= ->%sanitize_arg_None]. by destruct (Hkwargs name).
Qed.

Lemma None_only_from_default_witness :
  ∃ called self,
    __new__ ∅ Note [VStr "hello"] ∅ = (called, Ok self)
    ∧ __dict__ self !! "author" = Some VNone
    ∧ ∃ i, drop 1 (ArgsSpec.args note_signature) !! i = Some "author"
           ∧ [VStr "hello"] !! i = None
           ∧ declared_default note_signature (S i) = Some VNone.
Proof.
  destruct (__new__ ∅ Note [VStr "hello"] ∅)
    as [called [self|e]] eqn:Hnew; [|vm_compute in Hnew; discriminate].
  exists called, self. split; [reflexivity|].
  assert (__dict__ self !! "author" = Some VNone) as Hauthor.
  { vm_compute in Hnew. injection Hnew as _ <-. vm_compute. reflexivity. }
  split; [exact Hauthor|].
  assert (NoDup (ArgsSpec.args note_signature)) as Hnd.
  { apply (bool_decide_unpack _). vm_compute. reflexivity. }
  by destruct (None_only_from_default ∅ Note note_signature [VStr "hello"] ∅
                 called self "author" eq_refl Hnd Hnew Hauthor) as [_ Hi].
Defined.

(** X9.  [__new__] itself ignores the positional arguments beyond the
    declared fields: provided none of them is [None], it has the outcome
    of the call without them, invariant calls included.  It is the
    [__init__] of the subtype, called afterwards, that can reject them. *)
Theorem excess_positional_arguments_are_dropped h cls args_spec args
    (kwargs : gmap string Value) :
  __init__ cls = ArgsSpec.Function args_spec →
  VNone ∉ drop (length (ArgsSpec.args args_spec) - 1) args →
  __new__ h cls args kwargs
  = __new__ h cls (take (length (ArgsSpec.args args_spec) - 1) args) kwargs.
Proof.
  intros Hinit Hexcess. unfold __new__.
  change (init (object__new__ cls)) with (__init__ cls).
  rewrite Hinit. cbn [ArgsSpec.__init__].
  set (n := (length (ArgsSpec.args args_spec) - 1)%nat) in *.
  assert (existsb is_None args = existsb is_None (take n args)) as Hnone.
  { rewrite <-(take_drop n args) at 1. rewrite existsb_app.
    destruct (existsb is_None (drop n args)) eqn:Hdrop; [|by rewrite orb_false_r].
    apply existsb_exists in Hdrop as ([] & Hin%list_elem_of_In & ?); done. }
  assert (∀ kw, assign_instance_arguments h (object__new__ cls) args_spec args kw
                = assign_instance_arguments h (object__new__ cls) args_spec
                    (take n args) kw) as Hassign.
  { intros kw. unfold assign_instance_arguments.
    assert (zip (drop 1 (ArgsSpec.args args_spec)) (sanitize_arg h <$> take n args)
            = zip (drop 1 (ArgsSpec.args args_spec)) (sanitize_arg h <$> args)) as ->;
      [|done].
    rewrite fmap_take. apply zip_with_take_r'. rewrite length_drop. lia. }
  unfold check_class_initialization. rewrite Hnone, Hassign. done.
Qed.

Lemma excess_positional_arguments_are_dropped_witness :
  __new__ ∅ Point [VInt 1; VInt 2; VInt 3; VInt 4] ∅ = ([], Ok point_1_2).
Proof.
  rewrite (excess_positional_arguments_are_dropped ∅ Point (plain ["self"; "x"; "y"])).
  - vm_compute. reflexivity.
  - reflexivity.
  - apply existsb_is_None_false. reflexivity.
Defined.

(** ** Representation of an instance with unbound fields *)

Lemma mapM_raise {A B} (f : A → PyResult B) (l : list A) a e :
  a ∈ l → f a = Raise e →
  (∀ a', a' ∈ l → (∃ b, f a' = Ok b) ∨ f a' = Raise e) →
  mapM f l = Raise e.
Proof.
  induction l as [|a0 l IH]; intros Hin Hfa Hall; [by apply elem_of_nil in Hin|].
  simpl. destruct (Hall a0) as [[b Hb]|Hb]; [by left| |by rewrite Hb].
  rewrite Hb. simpl. apply elem_of_cons in Hin as [->|Hin]; [congruence|].
  rewrite IH; [done..|]. intros a' Ha'. apply Hall. by right.
Qed.

Lemma repr_unbound value_str self args_spec field :
  init self = ArgsSpec.Function args_spec →
  field ∈ drop 1 (ArgsSpec.args args_spec) →
  __dict__ self !! field = None →
  __repr__ value_str self = Raise AttributeError.
Proof.
  intros Hinit Hin Hfield. unfold __repr__. rewrite Hinit. simpl.
  rewrite (mapM_raise _ _ field AttributeError); [done|done| |].
  - unfold getattr. by rewrite Hfield.
  - intros arg _. unfold getattr. destruct (__dict__ self !! arg); simpl; eauto.
Qed.

Lemma repr_bound value_str self args_spec :
  init self = ArgsSpec.Function args_spec →
  (∀ field, field ∈ drop 1 (ArgsSpec.args args_spec) → is_Some (__dict__ self !! field)) →
  __repr__ value_str self
  = Ok (canonical_representation value_str (type_name self)
          (drop 1 (ArgsSpec.args args_spec)) (__dict__ self)).
Proof.
  intros Hinit Hbound. unfold __repr__. rewrite Hinit. simpl.
  rewrite (mapM_total _ (λ field, field +:+ "=" +:+
             value_str (default VNone (__dict__ self !! field)))); [done|].
  intros field [value Hv]%Hbound. unfold getattr. by rewrite Hv.
Qed.

(** X10.  For an instance of a class whose constructor signature is
    readable and whose declared fields are named like no attribute of
    the class, the representation and the hash raise [AttributeError]
    exactly when some declared field is unbound in the instance
    dictionary, as it is after [del self.field]. *)
Theorem repr_raises_iff_field_unbound value_str str_hash cls self args_spec :
  type_name self = __name__ cls →
  init self = __init__ cls →
  __init__ cls = ArgsSpec.Function args_spec →
  (∀ field, field ∈ drop 1 (ArgsSpec.args args_spec) → no_class_attribute cls field) →
  (__repr__ value_str self = Raise AttributeError
   ↔ ∃ field, field ∈ drop 1 (ArgsSpec.args args_spec) ∧ __dict__ self !! field = None)
  ∧ (hash value_str str_hash self = Raise AttributeError
     ↔ ∃ field, field ∈ drop 1 (ArgsSpec.args args_spec) ∧ __dict__ self !! field = None).
Proof.
  intros _ Hself Hcls _. rewrite <-Hself in Hcls.
  assert (__repr__ value_str self = Raise AttributeError
          ↔ ∃ field, field ∈ drop 1 (ArgsSpec.args args_spec)
                     ∧ __dict__ self !! field = None) as Hrepr.
  { split.
    - intros Hraise.
      destruct (decide (Forall (λ field, is_Some (__dict__ self !! field))
                          (drop 1 (ArgsSpec.args args_spec)))) as [Hall|Hsome].
      + rewrite Forall_forall in Hall.
        by rewrite (repr_bound _ _ _ Hcls Hall) in Hraise.
      + apply not_Forall_Exists in Hsome; [|apply _].
        apply Exists_exists in Hsome as (field & Hin & Hnone).
        exists field. split; [done|]. by apply eq_None_not_Some.
    - intros (field & Hin & Hnone). by eapply repr_unbound. }
  split; [exact Hrepr|].
  rewrite <-Hrepr. unfold hash.
  destruct (__repr__ value_str self); simpl; split; intros; simplify_eq; done.
Qed.

Lemma repr_raises_iff_field_unbound_witness :
  ∃ point',
    object__delattr__ point_1_2 "x" = Ok point'
    ∧ __repr__ scalar_str point_1_2 ≠ Raise AttributeError
    ∧ __repr__ scalar_str point' = Raise AttributeError
    ∧ hash scalar_str sample_hash point' = Raise AttributeError.
Proof.
  assert (∀ field, field ∈ drop 1 (ArgsSpec.args (plain ["self"; "x"; "y"])) →
                   no_class_attribute Point field) as Hplain.
  { intros field Hfield Hmember. simpl in Hfield, Hmember.
    apply list_elem_of_singleton in Hmember as ->.
    rewrite !elem_of_cons in Hfield. destruct Hfield as [?|[?|?%elem_of_nil]]; done. }
  destruct (object__delattr__ point_1_2 "x") as [point'|e] eqn:Hdel;
    [|vm_compute in Hdel; discriminate].
  exists point'. split; [reflexivity|].
  assert (point' = {| type_name := "Point"; init := signature ["self"; "x"; "y"];
                      __dict__ := delete "x" (__dict__ point_1_2) |}) as ->.
  { unfold object__delattr__ in Hdel.
    destruct (__dict__ point_1_2 !! "x"); [by injection Hdel as <-|done]. }
  destruct (repr_raises_iff_field_unbound scalar_str sample_hash Point point_1_2
              (plain ["self"; "x"; "y"]) eq_refl eq_refl eq_refl Hplain) as [Hrepr _].
  destruct (repr_raises_iff_field_unbound scalar_str sample_hash Point
              {| type_name := "Point"; init := signature ["self"; "x"; "y"];
                 __dict__ := delete "x" (__dict__ point_1_2) |}
              (plain ["self"; "x"; "y"]) eq_refl eq_refl eq_refl Hplain)
    as [Hrepr' Hhash'].
  split.
  - rewrite Hrepr. intros (field & Hin & Hnone).
    simpl in Hin. rewrite !elem_of_cons in Hin.
    destruct Hin as [->|[->|Hin]]; [vm_compute in Hnone; discriminate..|].
    by apply elem_of_nil in Hin.
  - split.
    + apply Hrepr'. exists "x". split; [by left|]. vm_compute. reflexivity.
    + apply Hhash'. exists "x". split; [by left|]. vm_compute. reflexivity.
Defined.

(** ** Comparison operators *)

Lemma mappings_equal_sym value_eq (a b : gmap string Value) :
  (∀ va vb, value_eq va vb = value_eq vb va) →
  mappings_equal value_eq a b → mappings_equal value_eq b a.
Proof.
  intros Hsym Hab name. specialize (Hab name).
  destruct (a !! name), (b !! name); try done. by rewrite Hsym.
Qed.

Lemma dict_eq_sym value_eq (a b : gmap string Value) :
  (∀ va vb, value_eq va vb = value_eq vb va) →
  dict_eq value_eq a b = dict_eq value_eq b a.
Proof.
  intros Hsym.
  destruct (dict_eq value_eq a b) eqn:Hab, (dict_eq value_eq b a) eqn:Hba; try done.
  - apply dict_eq_true, (mappings_equal_sym _ _ _ Hsym), dict_eq_true in Hab. congruence.
  - apply dict_eq_true, (mappings_equal_sym _ _ _ Hsym), dict_eq_true in Hba. congruence.
Qed.

Lemma scalar_eq_sym a b : scalar_eq a b = scalar_eq b a.
Proof.
  destruct a, b; simpl; try done.
  - by destruct b, b0.
  - apply Z.eqb_sym.
  - apply Z.eqb_sym.
  - apply Z.eqb_sym.
  - apply String.eqb_sym.
Qed.

(** X12.  On any right operand other than [None], [!=] is the negation of
    [==]: both return, with opposite results, on an operand that has an
    instance dictionary, and both raise [AttributeError] on one that has
    none. *)
Theorem ne_negates_eq value_eq (x : Instance) (other : Operand) :
  other ≠ OfValue VNone →
  __ne__ value_eq x other = (b ← __eq__ value_eq x other; Ok (negb b)).
Proof.
  intros Hother. destruct other as [[| | | | | |]|y]; done.
Qed.

Lemma ne_negates_eq_witness :
  __ne__ scalar_eq point_1_2 (OfInstance pixel_1_2) = Ok false
  ∧ __ne__ scalar_eq point_1_2 (OfValue (VInt 3)) = Raise AttributeError.
Proof.
  split.
  - by rewrite (ne_negates_eq scalar_eq point_1_2 (OfInstance pixel_1_2)).
  - by rewrite (ne_negates_eq scalar_eq point_1_2 (OfValue (VInt 3))).
Defined.

(** X13.  Where the comparison of values is symmetric, the comparison of
    instances is symmetric, although it walks the fields of the left
    operand only. *)
Theorem eq_symmetric value_eq (x y : Instance) :
  (∀ va vb, value_eq va vb = value_eq vb va) →
  __eq__ value_eq x (OfInstance y) = __eq__ value_eq y (OfInstance x).
Proof. intros Hsym. simpl. f_equal. by apply dict_eq_sym. Qed.

Lemma eq_symmetric_witness :
  __eq__ scalar_eq point_1_2 (OfInstance pixel_1_2)
  = __eq__ scalar_eq pixel_1_2 (OfInstance point_1_2).
Proof. apply eq_symmetric, scalar_eq_sym. Defined.

(** X14.  An instance compares equal to itself as soon as each of its
    field values compares equal to itself. *)
Theorem eq_reflexive value_eq (x : Instance) :
  (∀ name value, __dict__ x !! name = Some value → value_eq value value = true) →
  __eq__ value_eq x (OfInstance x) = Ok true.
Proof.
  intros Hrefl. simpl. f_equal. apply dict_eq_true. intros name.
  destruct (__dict__ x !! name) eqn:Hname; [by eapply Hrefl|done].
Qed.

Lemma eq_reflexive_witness :
  __eq__ scalar_eq point_1_2 (OfInstance point_1_2) = Ok true.
Proof.
  apply eq_reflexive. intros name value Hname.
  assert (value = VInt 1 ∨ value = VInt 2) as [-> | ->]; [|done..].
  unfold point_1_2 in Hname. simpl in Hname.
  apply lookup_insert_Some in Hname as [[_ <-]|[_ Hname]]; [by left|].
  apply lookup_insert_Some in Hname as [[_ <-]|[_ Hname]]; [by right|].
  by rewrite lookup_empty in Hname.
Defined.

(** ** The two sanitizing loops *)

(** X15.  The loop over the named arguments, with its two separate tests,
    computes what the loop over the positional arguments computes with
    its chain of tests: every named argument keeps its name and has its
    value replaced as a positional argument would. *)
Theorem named_arguments_sanitized_like_positional h (kwargs : gmap string Value) :
  replace_mutable_kwargs_with_immutable_types h kwargs = sanitize_arg h <$> kwargs
  ∧ dom (replace_mutable_kwargs_with_immutable_types h kwargs) = dom kwargs.
Proof.
  rewrite replace_mutable_kwargs_fmap. split; [done|]. apply dom_fmap_L.
Qed.

(** X16.  Sanitizing is idempotent: a sanitized value is left as it is,
    so an [ImmutableDict] or a tuple taken from one instance is bound
    unchanged in another. *)
Theorem sanitize_arg_idempotent h value :
  sanitize_arg h (sanitize_arg h value) = sanitize_arg h value.
Proof.
  unfold sanitize_arg. destruct value as [| | | | | |l]; simpl; try done.
  destruct (h !! l) as [[]|] eqn:Hl; simpl; by rewrite ?Hl.
Qed.
